(** * MultilabelOversampler: a shallow embedding of
      [multilabel_oversampling/multilabel_oversampling.py]

    The greedy accept/reject loop of [MultilabelOversampler.fit] is embedded
    in a small state-and-exception monad over a store of DataFrame objects,
    the numpy random source, the printed lines and the instance attributes.
    Scores are IEEE-754 binary64 values ([spec_float]); integers are [Z]. *)

From Stdlib Require Import ZArith String List Bool Lia PeanoNat.
From Stdlib Require Import SpecFloat DecimalString Permutation.
Import ListNotations.
Open Scope Z_scope.

(** ** Python values, numbers and exceptions *)

Definition float : Type := spec_float.

Definition prec : Z := 53.
Definition emax : Z := 1024.

(** [float(z)] for an integer [z], rounded to nearest even. *)
Definition f64_of_Z (z : Z) : float := binary_normalize prec emax z 0 false.

(** The values a constructor argument can hold. *)
Inductive pyval : Type :=
| PyNone
| PyBool (b : bool)
| PyInt (z : Z)
| PyFloat (f : float).

(** Truth value testing, as [if number_of_adds:] performs it. *)
Definition truthy (v : pyval) : bool :=
  match v with
  | PyNone => false
  | PyBool b => b
  | PyInt z => negb (z =? 0)
  | PyFloat (S754_zero _) => false
  | PyFloat _ => true
  end.

(** The float literal [1e6]. *)
Definition sentinel : float := Eval cbv in f64_of_Z 1000000.

(** What [range] accepts: objects with [__index__], that is [int] and its
    subclass [bool]. A [float] or [None] makes [range] raise [TypeError]. *)
Definition as_index (v : pyval) : option Z :=
  match v with
  | PyInt z => Some z
  | PyBool b => Some (if b then 1 else 0)
  | PyNone | PyFloat _ => None
  end.

(** [range(n)] as the list [0, 1, ..., n-1]; empty when [n <= 0]. *)
Definition range (n : Z) : list Z := map Z.of_nat (seq 0 (Z.to_nat n)).

Inductive exn : Type :=
| TypeError
| KeyError (missing : list string)
| ValueError
| IndexError
| UnboundLocalError
| Dangling. (* not a Python exception: an address outside the store *)

(** ** DataFrames *)

(** A row keeps its index label and one int64 cell per column. *)
Record Row : Type := mkRow { label : Z; cells : list Z }.

Record DataFrame : Type := mkFrame { columns : list string; rows : list Row }.

Definition shape (d : DataFrame) : nat * nat :=
  (length (rows d), length (columns d)).

Fixpoint position (name : string) (cols : list string) : option nat :=
  match cols with
  | [] => None
  | c :: cols' =>
      if String.eqb name c then Some O
      else option_map S (position name cols')
  end.

Definition present (cols : list string) (name : string) : bool :=
  match position name cols with Some _ => true | None => false end.

(** int64 wrap-around of numpy's integer sum. *)
Definition wrap64 (z : Z) : Z := (z + 2 ^ 63) mod 2 ^ 64 - 2 ^ 63.

Definition column_sum (rs : list Row) (pos : nat) : Z :=
  wrap64 (fold_left Z.add (map (fun r => nth pos (cells r) 0) rs) 0).

(** The names of [target_list] that are not columns. *)
Definition missing (target_list cols : list string) : list string :=
  filter (fun name => negb (present cols name)) target_list.

(** [d[target_list].sum()]: the per-label totals, or the [KeyError] that the
    column selection raises, carrying the names that are not columns. *)
Definition label_sums (target_list : list string) (d : DataFrame)
  : exn + list Z :=
  match missing target_list (columns d) with
  | [] =>
      inr (map (fun name =>
                  match position name (columns d) with
                  | Some pos => column_sum (rows d) pos
                  | None => 0
                  end) target_list)
  | missing => inl (KeyError missing)
  end.

(** [Series.std] belongs to pandas, not to this repository, so the
    development below takes the reduction as a parameter. For concrete runs
    it is instantiated with this one: the sample standard deviation
    (denominator k-1) of the totals, computed in two passes in binary64, and
    not-a-number below two values. The sums are taken from left to right;
    a library that adds in another order can differ from it in the last
    bit once there are more than a few totals. *)
Definition fsum (l : list float) : float :=
  fold_left (SFadd prec emax) l (S754_zero false).

Definition sample_std (v : list Z) : float :=
  let k := Z.of_nat (length v) in
  if k <=? 1 then S754_nan
  else
    let xs := map f64_of_Z v in
    let avg := SFdiv prec emax (fsum xs) (f64_of_Z k) in
    let sqr := map (fun x => let d := SFsub prec emax avg x in
                             SFmul prec emax d d) xs in
    SFsqrt prec emax (SFdiv prec emax (fsum sqr) (f64_of_Z (k - 1))).

(** ** The instance, the printed lines and the world *)

Definition addr : Type := nat.

Record MultilabelOversampler : Type := mkSelf {
  number_of_adds : pyval;
  number_of_tries : pyval;
  tqdm_disable : bool;
  details : bool;
  plot : bool;
  self_target_list : option (list string);
  self_df : option addr;
  self_df_new : option addr;
  self_res_std : option (list float);
  self_res_bad : option (list (list (Z * float)))
}.

(** [__init__]: a falsy bound is replaced by the float [1e6]. The
    constructor assigns the two bounds and the three flags only. The other
    five attributes come into being in [reset], as [None]; the record has
    them from the start, as [None] too, so it is exact about them from
    the first [reset] on, which is the first thing [fit] does. Reading one
    of them earlier is an [AttributeError] in Python, which the embedding
    does not have. *)
Definition init (adds tries : pyval) (tqdm_disable details plot : bool)
  : MultilabelOversampler :=
  mkSelf (if truthy adds then adds else PyFloat sentinel)
         (if truthy tries then tries else PyFloat sentinel)
         tqdm_disable details plot None None None None None.

(** The two [print] calls of [fit]. *)
Inductive line : Type :=
| Worked (iter_ try_ row : Z) (current_std new_std : float)
         (shape_ : nat * nat)
| NoImprovement (tries : pyval) (iter_ : Z).

Record world : Type := mkWorld {
  heap : list DataFrame;     (* DataFrame objects, by address *)
  entropy : nat -> nat;      (* the numpy random source, draw by draw *)
  drawn : nat;               (* draws consumed so far *)
  stdout : list line;
  this : MultilabelOversampler
}.

(** ** The monad: state and exceptions *)

Definition M (A : Type) : Type := world -> world * (exn + A).

Definition ret {A} (a : A) : M A := fun w => (w, inr a).

Definition raise {A} (e : exn) : M A := fun w => (w, inl e).

Definition bind {A B} (c : M A) (k : A -> M B) : M B :=
  fun w =>
    match c w with
    | (w', inr a) => k a w'
    | (w', inl e) => (w', inl e)
    end.

Notation "x <- c ;; k" := (bind c (fun x => k))
  (at level 61, c at next level, right associativity).
Notation "c ;;; k" := (bind c (fun _ => k))
  (at level 61, right associativity).

(** World updates. *)
Definition push (d : DataFrame) (w : world) : world :=
  mkWorld (heap w ++ [d]) (entropy w) (drawn w) (stdout w) (this w).

Definition tick (w : world) : world :=
  mkWorld (heap w) (entropy w) (S (drawn w)) (stdout w) (this w).

Definition say (l : line) (w : world) : world :=
  mkWorld (heap w) (entropy w) (drawn w) (stdout w ++ [l]) (this w).

Definition update (f : MultilabelOversampler -> MultilabelOversampler)
  (w : world) : world :=
  mkWorld (heap w) (entropy w) (drawn w) (stdout w) (f (this w)).

Definition get_self : M MultilabelOversampler := fun w => (w, inr (this w)).

Definition set_self (f : MultilabelOversampler -> MultilabelOversampler)
  : M unit :=
  fun w => (update f w, inr tt).

Definition print (l : line) : M unit := fun w => (say l w, inr tt).

(** A new object is placed at the next free address. *)
Definition alloc (d : DataFrame) : M addr :=
  fun w => (push d w, inr (length (heap w))).

Definition deref (a : addr) : M DataFrame :=
  fun w =>
    match nth_error (heap w) a with
    | Some d => (w, inr d)
    | None => (w, inl Dangling)
    end.

(** One draw from the random source. *)
Definition next_draw : M nat :=
  fun w => (tick w, inr (entropy w (drawn w))).

(** ** Library operations used by [fit] *)

Definition deepcopy (a : addr) : M addr := d <- deref a ;; alloc d.

(** [df.sample(n=1)]: a new one-row frame holding one of the rows of [df],
    whichever the random source picks; [ValueError] on an empty frame,
    raised before the source is consulted. *)
Definition pick (d : DataFrame) (k : nat) : Row :=
  nth (Nat.modulo k (length (rows d))) (rows d) (mkRow 0 []).

Definition sample (a : addr) : M addr :=
  d <- deref a ;;
  match rows d with
  | [] => raise ValueError
  | _ :: _ =>
      k <- next_draw ;;
      alloc (mkFrame (columns d) [pick d k])
  end.

(** [pd.concat((a, b))] for frames over the same columns: a new frame. *)
Definition concat (a b : addr) : M addr :=
  da <- deref a ;;
  db <- deref b ;;
  alloc (mkFrame (columns da) (rows da ++ rows db)).

(** [frame.index[0]]. *)
Definition index0 (a : addr) : M Z :=
  d <- deref a ;;
  match rows d with
  | [] => raise IndexError
  | r :: _ => ret (label r)
  end.

(** Python's for loop with [break]. *)
Inductive flow : Type := Next | Break.

Fixpoint for_each {St : Type} (body : Z -> St -> M (flow * St))
  (xs : list Z) (s : St) : M (flow * St) :=
  match xs with
  | [] => ret (Next, s)
  | x :: xs' =>
      r <- body x s ;;
      match fst r with
      | Break => ret (Break, snd r)
      | Next => for_each body xs' (snd r)
      end
  end.

(** The local variables of [fit] that outlive an iteration. *)
Record locals : Type := mkLocals {
  df_new : addr;
  res_std : list float;
  res_bad : list (list (Z * float));
  not_working : list (Z * float);
  try_ : option Z
}.

(** The plot handle returned by [plot_all_tries]: the pyplot module. *)
Inductive pyplot : Type := plt.

Inductive retval : Type :=
| RetFrame (df_new : addr)
| RetPair (df_new : addr) (plot_at : pyplot).

(** [plot_all_tries]: drawing itself is not modelled, its Python-level
    failures are: [res_bad[0]] on an empty list and [max] of an empty
    sequence. What pyplot makes of the axis limit [y_max], a limit that is
    not finite included, is on the side of the drawing. *)
Definition plot_all_tries (res_std : list float)
  (res_bad : list (list (Z * float))) : M pyplot :=
  match res_bad with
  | [] => raise IndexError
  | first :: _ =>
      match map snd first with
      | [] => raise ValueError
      | _ :: _ => ret plt
      end
  end.

(** Attribute assignments on the instance. *)
Definition clear (s : MultilabelOversampler) : MultilabelOversampler :=
  mkSelf (number_of_adds s) (number_of_tries s) (tqdm_disable s)
         (details s) (plot s) None None None None None.

Definition with_target_list (target_list : list string)
  (s : MultilabelOversampler) : MultilabelOversampler :=
  mkSelf (number_of_adds s) (number_of_tries s) (tqdm_disable s)
         (details s) (plot s) (Some target_list) (self_df s)
         (self_df_new s) (self_res_std s) (self_res_bad s).

Definition with_df (a : addr) (s : MultilabelOversampler)
  : MultilabelOversampler :=
  mkSelf (number_of_adds s) (number_of_tries s) (tqdm_disable s)
         (details s) (plot s) (self_target_list s) (Some a)
         (self_df_new s) (self_res_std s) (self_res_bad s).

Definition with_results (L : locals) (s : MultilabelOversampler)
  : MultilabelOversampler :=
  mkSelf (number_of_adds s) (number_of_tries s) (tqdm_disable s)
         (details s) (plot s) (self_target_list s) (self_df s)
         (Some (df_new L)) (Some (res_std L)) (Some (res_bad L)).

Definition reset : M unit := set_self clear.

(** The world in which the iteration loop of [fit] starts: the instance
    reset, and two copies of the input frame [d] in the store. *)
Definition prepared (target_list : list string) (d : DataFrame) (w : world)
  : world :=
  push d (update (with_df (length (heap w)))
            (push d (update (with_target_list target_list)
                       (update clear w)))).

(** The store only grows: the objects of [w] are those of [w'], unchanged. *)
Definition grows (w w' : world) : Prop :=
  exists ext, heap w' = heap w ++ ext.

(** A computation preserves [R] when every run of it, normal or not, ends
    in a world related to the one it started in. *)
Definition preserves (R : world -> world -> Prop) {A} (c : M A) : Prop :=
  forall w, R w (fst (c w)).

(** Inside the loops the random source and the instance stay as they are. *)
Definition steady (w w' : world) : Prop :=
  grows w w' /\ entropy w' = entropy w /\ this w' = this w.

(** A sequence of scores in which each is below the one before it. *)
Fixpoint strictly_decreasing (l : list float) : bool :=
  match l with
  | a :: (b :: _) as t => SFltb b a && strictly_decreasing t
  | _ => true
  end.

Section Fit.

(** The reduction [Series.std] applied to the label totals. *)
Variable std : list Z -> float.

(** [frame[target_list].sum().std()] on a frame value. *)
Definition frame_score (target_list : list string) (d : DataFrame)
  : exn + float :=
  match label_sums target_list d with
  | inl e => inl e
  | inr sums => inr (std sums)
  end.

Definition score (a : addr) (target_list : list string) : M float :=
  d <- deref a ;;
  match frame_score target_list d with
  | inl e => raise e
  | inr s => ret s
  end.

(** The body of the try loop (lines 79-90). *)
Definition trial (df : addr) (target_list : list string) (iter_ : Z)
  (current_std : float) (t : Z) (L : locals) : M (flow * locals) :=
  random_row <- sample df ;;
  df_interim <- concat (df_new L) random_row ;;
  new_std <- score df_interim target_list ;;
  if SFltb new_std current_std then
    self <- get_self ;;
    (if details self then
       i0 <- index0 random_row ;;
       d <- deref df_interim ;;
       print (Worked iter_ t i0 current_std new_std (shape d))
     else ret tt) ;;;
    ret (Break, mkLocals df_interim (res_std L ++ [new_std]) (res_bad L)
                         (not_working L) (Some t))
  else
    i0 <- index0 random_row ;;
    ret (Next, mkLocals (df_new L) (res_std L) (res_bad L)
                        (not_working L ++ [(i0, new_std)]) (Some t)).

(** The body of the iteration loop (lines 74-94). The [tqdm] wrappers only
    draw a progress bar and hand the range through. The test
    [(try_+1) == self.number_of_tries] is reached only when [range]
    accepted [number_of_tries], whose integer value is [m]. *)
Definition iteration (df : addr) (target_list : list string) (iter_ : Z)
  (L : locals) : M (flow * locals) :=
  current_std <- score (df_new L) target_list ;;
  self <- get_self ;;
  match as_index (number_of_tries self) with
  | None => raise TypeError
  | Some m =>
      r <- for_each (trial df target_list iter_ current_std) (range m)
             (mkLocals (df_new L) (res_std L) (res_bad L) [] (try_ L)) ;;
      let T := snd r in
      match try_ T with
      | None => raise UnboundLocalError
      | Some t =>
          if t + 1 =? m then
            print (NoImprovement (number_of_tries self) iter_) ;;;
            ret (Break, T)
          else
            ret (Next, mkLocals (df_new T) (res_std T)
                                (res_bad T ++ [not_working T])
                                (not_working T) (try_ T))
      end
  end.

(** Lines 98-106: store the results on the instance and return. *)
Definition finish (L : locals) : M retval :=
  set_self (with_results L) ;;;
  self <- get_self ;;
  if (0 <? length (res_std L))%nat && plot self then
    plot_at <- plot_all_tries (res_std L) (res_bad L) ;;
    ret (RetPair (df_new L) plot_at)
  else ret (RetFrame (df_new L)).

(** The locals as the iteration loop finds them. *)
Definition start (df_new : addr) : locals := mkLocals df_new [] [] [] None.

Definition fit (df : addr) (target_list : list string) : M retval :=
  reset ;;;
  set_self (with_target_list target_list) ;;;
  copy <- deepcopy df ;;
  set_self (with_df copy) ;;;
  df_new <- deepcopy df ;;
  self <- get_self ;;
  match as_index (number_of_adds self) with
  | None => raise TypeError
  | Some n =>
      r <- for_each (iteration df target_list) (range n) (start df_new) ;;
      finish (snd r)
  end.

(** [dn'] is [dn] with one row of [d] appended, and scores [s], which is
    below [cur]. *)
Definition accepts (target_list : list string) (d dn : DataFrame)
  (cur s : float) (dn' : DataFrame) : Prop :=
  exists r, In r (rows d) /\
    dn' = mkFrame (columns dn) (rows dn ++ [r]) /\
    frame_score target_list dn' = inr s /\
    SFltb s cur = true.

(** [rej] lists, draw by draw from world [w] on, the index label of the
    drawn row and the score of its candidate, which is not below [cur]. *)
Definition rejects (target_list : list string) (d dn : DataFrame)
  (w : world) (cur : float) (rej : list (Z * float)) : Prop :=
  forall k p, nth_error rej k = Some p ->
    fst p = label (pick d (entropy w (drawn w + k))) /\
    frame_score target_list
      (mkFrame (columns dn)
         (rows dn ++ [pick d (entropy w (drawn w + k))])) = inr (snd p) /\
    SFltb (snd p) cur = false.

(** What holds of the working frame at the head of every iteration, for
    the input frame [d] and a store that had [base] objects when [fit]
    was called: the working frame is a newer object, made of the rows of
    [d] followed by one row of [d] per accepted score, and the accepted
    scores descend from the score of [d] to the score of the working
    frame. *)
Definition loop_inv (target_list : list string) (d : DataFrame)
  (base : nat) (w : world) (L : locals) : Prop :=
  (base <= df_new L)%nat /\
  exists extra,
    nth_error (heap w) (df_new L)
      = Some (mkFrame (columns d) (rows d ++ extra)) /\
    Forall (fun r => In r (rows d)) extra /\
    length extra = length (res_std L) /\
    forall s0, frame_score target_list d = inr s0 ->
      strictly_decreasing (s0 :: res_std L) = true /\
      frame_score target_list (mkFrame (columns d) (rows d ++ extra))
        = inr (last (res_std L) s0).

(** The inputs on which the loop can raise. *)
Definition invalid (target_list : list string) (d : DataFrame) (w : world)
  : Prop :=
  rows d = [] \/ missing target_list (columns d) <> [] \/
  ~ (exists m, as_index (number_of_tries (this w)) = Some m /\ 1 <= m).

End Fit.

(** The row a trial draws in world [w], its candidate frame, and the world
    after the trial's two allocations. *)
Definition drawn_row (d : DataFrame) (w : world) : Row :=
  pick d (entropy w (drawn w)).

Definition candidate (d dn : DataFrame) (w : world) : DataFrame :=
  mkFrame (columns dn) (rows dn ++ [drawn_row d w]).

Definition tried (d dn : DataFrame) (w : world) : world :=
  push (candidate d dn w) (push (mkFrame (columns d) [drawn_row d w]) (tick w)).

(** ** Reporting (lines 129-153) *)

(** What [plot_results] draws: the heights of the two bar charts, and the
    values, the number of bins and the ticks of the histogram. The pyplot
    calls themselves are taken to succeed; the Python functions return the
    pyplot module, the embedding returns what they have drawn. *)
Record figure : Type := mkFigure {
  bars_before : list Z;
  bars_after : list Z;
  hist_values : list Z;
  hist_bins : nat;
  hist_ticks : list Z
}.

(** [plot_distr]: [df[self.target_list].sum()], the heights of the bars.
    [None] in place of the frame is not subscriptable; [None] in place of
    the list is not a key. *)
Definition plot_distr (df : option addr) : M (list Z) :=
  self <- get_self ;;
  match df with
  | None => raise TypeError
  | Some a =>
      d <- deref a ;;
      match self_target_list self with
      | None => raise (KeyError [])
      | Some target_list =>
          match label_sums target_list d with
          | inl e => raise e
          | inr sums => ret sums
          end
      end
  end.

(** Python's [min] and [max] of a list; [None] stands for the
    [ValueError] on an empty one. *)
Definition minimum (l : list Z) : option Z :=
  match l with
  | [] => None
  | a :: t => Some (fold_left Z.min t a)
  end.

Definition maximum (l : list Z) : option Z :=
  match l with
  | [] => None
  | a :: t => Some (fold_left Z.max t a)
  end.

(** [range(a, b)]. *)
Definition span (a b : Z) : list Z :=
  map (fun k => a + Z.of_nat k) (seq 0 (Z.to_nat (b - a))).

(** [plot_index_counts]: the index labels, the number of distinct ones (the
    bins of the histogram) and the ticks from the least to the greatest
    label. On a frame without rows the histogram gets no bin and [min] no
    element: [ValueError] either way. *)
Definition plot_index_counts (df_new : addr) : M (list Z * nat * list Z) :=
  d <- deref df_new ;;
  let idxs := map label (rows d) in
  let lens := length (nodup Z.eq_dec idxs) in
  match minimum idxs, maximum idxs with
  | Some lo, Some hi => ret (idxs, lens, span lo (hi + 1))
  | _, _ => raise ValueError
  end.

(** [plot_results]. The last match only unpacks [self.df_new]: when it is
    [None] the second [plot_distr] has raised already. *)
Definition plot_results : M figure :=
  self <- get_self ;;
  before <- plot_distr (self_df self) ;;
  after <- plot_distr (self_df_new self) ;;
  match self_df_new self with
  | None => raise TypeError
  | Some a =>
      h <- plot_index_counts a ;;
      ret (mkFigure before after (fst (fst h)) (snd (fst h)) (snd h))
  end.

(** ** Test data (lines 13-29) *)

Module Fake.

(** The columns handed to [pd.DataFrame]; the index is 0, 1, 2, ... *)
Record table : Type := mkTable {
  y1 : list Z;
  y2 : list Z;
  y3 : list Z;
  y4 : list Z;
  x : list string
}.

Definition ones (n : Z) : list Z := repeat 1 (Z.to_nat n).

Definition zeros (n : Z) : list Z := repeat 0 (Z.to_nat n).

(** The f-string of line 27. *)
Definition img (k : Z) : string :=
  String.append "img_"
    (String.append (NilZero.string_of_int (Z.to_int k)) ".jpg").

Section Sources.

(** The draws numpy makes after [np.random.seed(seed)]. *)
Variable generator : Z -> nat -> nat.

(** [sklearn.utils.shuffle] on a one-dimensional array. *)
Variable shuffle : list Z -> M (list Z).

(** [seed_everything]: numpy takes a seed from 0 to 2**32 - 1 and starts
    its source afresh. Python's own [random] is seeded too, and nothing
    here draws from it. *)
Definition seed_everything (seed : Z) : M unit :=
  if (0 <=? seed) && (seed <? 2 ^ 32) then
    fun w =>
      (mkWorld (heap w) (generator seed) 0 (stdout w) (this w), inr tt)
  else raise ValueError.

(** [create_fake_data]: [np.ones] and [np.zeros] refuse a negative
    length. *)
Definition create_fake_data (size seed : Z) : M table :=
  seed_everything seed ;;;
  if size <? 0 then raise ValueError
  else
    c3 <- shuffle (ones (4 * size) ++ zeros (16 * size)) ;;
    c4 <- shuffle (ones (4 * size) ++ zeros (16 * size)) ;;
    ret (mkTable (ones (16 * size) ++ zeros (4 * size))
                 (ones (12 * size) ++ zeros (8 * size))
                 c3 c4 (map img (range (20 * size)))).

End Sources.

End Fake.

(** The sum of a column. *)
Definition total (l : list Z) : Z := fold_right Z.add 0 l.

(** ** Concrete inputs *)

Open Scope string_scope.

(** Four rows, label totals 3 and 1, and one explanatory column. *)
Definition demo : DataFrame :=
  mkFrame ["y1"; "y2"; "x"]
    [mkRow 0 [1; 0; 7]; mkRow 1 [1; 0; 8]; mkRow 2 [1; 0; 9];
     mkRow 3 [0; 1; 10]].

(** Two rows, label totals 1 and 1: the score is already 0. *)
Definition balanced : DataFrame :=
  mkFrame ["y1"; "y2"] [mkRow 0 [1; 0]; mkRow 1 [0; 1]].

Definition labels : list string := ["y1"; "y2"].

Definition one_label : list string := ["y1"].

Definition unknown_label : list string := ["y1"; "zz"].

Close Scope string_scope.

(** A world holding one frame, at address 0, and a fresh instance. *)
Definition booted (d : DataFrame) (self : MultilabelOversampler)
  (e : nat -> nat) : world :=
  mkWorld [d] e 0%nat [] self.

(** A random source that always picks the same position. *)
Definition always (k : nat) : nat -> nat := fun _ => k.

(** Five adds, two tries, always drawing row 3: iterations 0 and 1 accept
    at their first try, iteration 2 rejects both tries. *)
Definition demo_world : world :=
  booted demo (init (PyInt 5) (PyInt 2) false false false) (always 3).

Definition demo_run : world * (exn + retval) :=
  fit sample_std 0%nat labels demo_world.

Definition demo_score : float := S754_finite false 6369051672525773 (-52).

Definition demo_scores : list float :=
  [S754_finite false 6369051672525773 (-53); S754_zero false].

(** The same run cut into the loop up to iteration 2 and the try loop of
    iteration 2. *)
Definition stall_head : world * (exn + flow * locals) :=
  for_each (iteration sample_std 0%nat labels) (range 2) (start 2%nat)
    (prepared labels demo demo_world).

Definition stall_wi : world := fst stall_head.

Definition stall_Li : locals :=
  match snd stall_head with
  | inr (_, L) => L
  | inl _ => start 0%nat
  end.

Definition stall_try : world * (exn + flow * locals) :=
  for_each (trial sample_std 0%nat labels 2 (S754_zero false)) (range 2)
    (mkLocals (df_new stall_Li) (res_std stall_Li) (res_bad stall_Li) []
       (try_ stall_Li))
    stall_wi.

Definition stall_ws : world := fst stall_try.

Definition stall_T : locals :=
  match snd stall_try with
  | inr (_, T) => T
  | inl _ => start 0%nat
  end.

(** One try per iteration: every acceptance is on the last try. *)
Definition last_try_run : world * (exn + retval) :=
  fit sample_std 0%nat labels
    (booted demo (init (PyInt 5) (PyInt 1) false false false) (always 3)).

(** An empty [target_list]. *)
Definition no_labels_run : world * (exn + retval) :=
  fit sample_std 0%nat []
    (booted demo (init (PyInt 5) (PyInt 2) false false true) (always 3)).

(** A frame that is already balanced: iteration 0 stalls. *)
Definition balanced_run : world * (exn + retval) :=
  fit sample_std 0%nat labels
    (booted balanced (init (PyInt 5) (PyInt 2) false false true)
       (fun k => k)).

(** Three tries, drawing rows 2, 3, 0, 1, 2: iteration 0 rejects once and
    accepts, iteration 1 stalls; [plot] is on. *)
Definition pair_world : world :=
  booted demo (init (PyInt 5) (PyInt 3) false false true)
    (fun k => S (S k)).

Definition pair_run : world * (exn + retval) :=
  fit sample_std 0%nat labels pair_world.

(** Worlds for the edges of [fit]. *)
Definition negative_adds_world : world :=
  booted demo (init (PyInt (-1)) (PyInt 2) false false true) (always 3).

Definition negative_tries_world : world :=
  booted demo (init (PyInt 5) (PyInt (-2)) false false true) (always 3).

(** [number_of_adds = 0]. *)
Definition zero_adds_world : world :=
  booted demo (init (PyInt 0) (PyInt 3) false false true) (always 3).

Definition empty_world : world :=
  booted (mkFrame (columns balanced) [])
    (init (PyInt 5) (PyInt 2) false false true) (always 3).

Definition balanced_world : world :=
  booted balanced (init (PyInt 5) (PyInt 2) false false true) (fun k => k).

(** [demo_world] with results of an earlier call left on the instance. *)
Definition stale_world : world :=
  update (with_results (start 7%nat)) demo_world.

(** [plot] on, two tries, the first draw accepted. *)
Definition eager_world : world :=
  booted demo (init (PyInt 5) (PyInt 2) false false true) (always 3).

(** [plot] on, one try, the first draw accepted. *)
Definition single_try_world : world :=
  booted demo (init (PyInt 5) (PyInt 1) false false true) (always 3).

Definition single_try_loop : world * (exn + flow * locals) :=
  for_each (trial sample_std 0%nat labels 0 demo_score) (range 1)
    (start 2%nat) (prepared labels demo single_try_world).

Definition single_try_T : locals :=
  match snd single_try_loop with
  | inr (_, T) => T
  | inl _ => start 0%nat
  end.

(** The traces that [pair_run] stores. *)
Definition pair_scores : list float :=
  [S754_finite false 6369051672525773 (-53)].

Definition pair_rejects : list (list (Z * float)) :=
  [[(2, S754_finite false 4776788754394329 (-51))]].

(** A source that counts, and a shuffle that reverses. *)
Definition counting (seed : Z) (k : nat) : nat := k.

Definition reversing (l : list Z) : M (list Z) := ret (rev l).

Definition fake_run : world * (exn + Fake.table) :=
  Fake.create_fake_data counting reversing 1 3 demo_world.

Definition fake_table : Fake.table :=
  match snd fake_run with
  | inr t => t
  | inl _ => Fake.mkTable [] [] [] [] []
  end.

(** * Properties *)

(** ** Running the monad *)

Lemma bind_inr {A B} (c : M A) (k : A -> M B) w w' a :
  c w = (w', inr a) -> bind c k w = k a w'.
Proof. unfold bind. now intros ->. Qed.

Lemma bind_inl {A B} (c : M A) (k : A -> M B) w w' e :
  c w = (w', inl e) -> bind c k w = (w', inl e).
Proof. unfold bind. now intros ->. Qed.

Lemma nth_error_live {A} (h : list A) a x ext :
  nth_error h a = Some x -> nth_error (h ++ ext) a = Some x.
Proof.
  intros H. rewrite nth_error_app1; auto.
  apply nth_error_Some. congruence.
Qed.

Lemma nth_error_fresh {A} (h : list A) x :
  nth_error (h ++ [x]) (length h) = Some x.
Proof.
  rewrite nth_error_app2 by lia. now rewrite Nat.sub_diag.
Qed.

Lemma deref_run a w d :
  nth_error (heap w) a = Some d -> deref a w = (w, inr d).
Proof. unfold deref. now intros ->. Qed.

Lemma deepcopy_run a w d :
  nth_error (heap w) a = Some d ->
  deepcopy a w = (push d w, inr (length (heap w))).
Proof.
  intros H. unfold deepcopy.
  now rewrite (bind_inr _ _ _ _ _ (deref_run _ _ _ H)).
Qed.

Lemma sample_run a w d :
  nth_error (heap w) a = Some d ->
  rows d <> [] ->
  sample a w =
    (push (mkFrame (columns d) [drawn_row d w]) (tick w),
     inr (length (heap w))).
Proof.
  intros H Hr. unfold sample.
  rewrite (bind_inr _ _ _ _ _ (deref_run _ _ _ H)).
  destruct (rows d); [congruence | reflexivity].
Qed.

Lemma sample_empty a w d :
  nth_error (heap w) a = Some d ->
  rows d = [] ->
  sample a w = (w, inl ValueError).
Proof.
  intros H Hr. unfold sample.
  rewrite (bind_inr _ _ _ _ _ (deref_run _ _ _ H)), Hr.
  reflexivity.
Qed.

Lemma concat_run a b w da db :
  nth_error (heap w) a = Some da ->
  nth_error (heap w) b = Some db ->
  concat a b w =
    (push (mkFrame (columns da) (rows da ++ rows db)) w,
     inr (length (heap w))).
Proof.
  intros Ha Hb. unfold concat.
  rewrite (bind_inr _ _ _ _ _ (deref_run _ _ _ Ha)).
  now rewrite (bind_inr _ _ _ _ _ (deref_run _ _ _ Hb)).
Qed.

Lemma index0_run a w d r rest :
  nth_error (heap w) a = Some d ->
  rows d = r :: rest ->
  index0 a w = (w, inr (label r)).
Proof.
  intros H Hr. unfold index0.
  rewrite (bind_inr _ _ _ _ _ (deref_run _ _ _ H)), Hr.
  reflexivity.
Qed.

(** ** Ranges and loops *)

Lemma range_length n : length (range n) = Z.to_nat n.
Proof. unfold range. now rewrite length_map, length_seq. Qed.

Lemma range_nth n k x :
  nth_error (range n) k = Some x -> x = Z.of_nat k /\ Z.of_nat k < n.
Proof.
  unfold range. intros H.
  rewrite nth_error_map in H.
  destruct (nth_error (seq 0 (Z.to_nat n)) k) as [j|] eqn:E; [|discriminate].
  assert (Hk : (k < length (seq 0 (Z.to_nat n)))%nat)
    by (apply nth_error_Some; congruence).
  rewrite length_seq in Hk.
  apply (nth_error_nth _ _ O) in E. rewrite seq_nth in E by exact Hk.
  cbn in H. inversion H; subst. split; lia.
Qed.

Lemma range_split i n :
  0 <= i < n -> exists rest, range n = range i ++ i :: rest.
Proof.
  intros H. unfold range.
  replace (Z.to_nat n) with (Z.to_nat i + S (Z.to_nat (n - i - 1)))%nat
    by lia.
  rewrite seq_app, map_app. cbn [seq map Nat.add].
  rewrite Z2Nat.id by lia. eexists. reflexivity.
Qed.

(** Running a loop over [xs ++ ys] is running it over [xs] and, unless it
    broke, over [ys]. *)
Lemma for_each_app {St} (body : Z -> St -> M (flow * St)) xs ys s w :
  for_each body (xs ++ ys) s w =
    match for_each body xs s w with
    | (w', inr (Next, s')) => for_each body ys s' w'
    | other => other
    end.
Proof.
  revert s w. induction xs as [|x xs IH]; intros s w; [reflexivity|].
  cbn [for_each app]. unfold bind.
  destruct (body x s w) as [w1 [e|[[] s1]]]; cbn [fst snd].
  - reflexivity.
  - apply IH.
  - reflexivity.
Qed.

(** The loop rule: [I k] holds before the body runs on the [k]-th element,
    [B k] where the body breaks on it, and [E] where it raises. *)
Lemma for_each_rule {St} (body : Z -> St -> M (flow * St)) (xs : list Z)
  (I B : nat -> St -> world -> Prop) (E : exn -> world -> Prop) :
  (forall k x s w, nth_error xs k = Some x -> I k s w ->
     match body x s w with
     | (w', inr (Next, s')) => I (S k) s' w'
     | (w', inr (Break, s')) => B k s' w'
     | (w', inl e) => E e w'
     end) ->
  forall s w, I O s w ->
    match for_each body xs s w with
    | (w', inr (Next, s')) => I (length xs) s' w'
    | (w', inr (Break, s')) => exists k, (k < length xs)%nat /\ B k s' w'
    | (w', inl e) => E e w'
    end.
Proof.
  revert I B. induction xs as [|x xs IH]; intros I B Hstep s w H0.
  - exact H0.
  - cbn [for_each]. unfold bind.
    specialize (Hstep O x s w eq_refl H0) as H1.
    destruct (body x s w) as [w1 [e|[[] s1]]]; cbn [fst snd].
    + exact H1.
    + specialize (IH (fun k => I (S k)) (fun k => B (S k))).
      cbv beta in IH.
      assert (Hs : forall k x0 s0 w0, nth_error xs k = Some x0 ->
                I (S k) s0 w0 ->
                match body x0 s0 w0 with
                | (w', inr (Next, s')) => I (S (S k)) s' w'
                | (w', inr (Break, s')) => B (S k) s' w'
                | (w', inl e) => E e w'
                end)
        by (intros k x0 s0 w0 Hk; apply (Hstep (S k) x0 s0 w0 Hk)).
      specialize (IH Hs s1 w1 H1).
      destruct (for_each body xs s1 w1) as [w2 [e|[[] s2]]].
      * exact IH.
      * exact IH.
      * destruct IH as [k [Hk HB]]. exists (S k). split; [cbn; lia|exact HB].
    + exists O. split; [cbn; lia|exact H1].
Qed.

(** ** The store only grows *)

Lemma grows_refl w : grows w w.
Proof. exists []. now rewrite app_nil_r. Qed.

Lemma grows_trans w1 w2 w3 : grows w1 w2 -> grows w2 w3 -> grows w1 w3.
Proof.
  intros [e1 H1] [e2 H2]. exists (e1 ++ e2).
  now rewrite H2, H1, app_assoc.
Qed.

Lemma grows_live w w' a d :
  grows w w' -> nth_error (heap w) a = Some d ->
  nth_error (heap w') a = Some d.
Proof. intros [ext ->]. apply nth_error_live. Qed.

Lemma grows_length w w' :
  grows w w' -> (length (heap w) <= length (heap w'))%nat.
Proof. intros [ext ->]. rewrite length_app. lia. Qed.

Lemma steady_refl w : steady w w.
Proof. repeat split. apply grows_refl. Qed.

Lemma steady_trans w1 w2 w3 : steady w1 w2 -> steady w2 w3 -> steady w1 w3.
Proof.
  intros (G1 & E1 & T1) (G2 & E2 & T2). repeat split.
  - eapply grows_trans; eassumption.
  - congruence.
  - congruence.
Qed.

Section Preserved.

Variable R : world -> world -> Prop.
Hypothesis R_refl : forall w, R w w.
Hypothesis R_trans : forall w1 w2 w3, R w1 w2 -> R w2 w3 -> R w1 w3.

Lemma preserves_ret {A} (a : A) : preserves R (ret a).
Proof. intros w. apply R_refl. Qed.

Lemma preserves_raise {A} e : preserves R (@raise A e).
Proof. intros w. apply R_refl. Qed.

Lemma preserves_get_self : preserves R get_self.
Proof. intros w. apply R_refl. Qed.

Lemma preserves_deref a : preserves R (deref a).
Proof.
  intros w. unfold deref.
  destruct (nth_error (heap w) a); apply R_refl.
Qed.

Lemma preserves_bind {A B} (c : M A) (k : A -> M B) :
  preserves R c -> (forall a, preserves R (k a)) -> preserves R (bind c k).
Proof.
  intros Hc Hk w. unfold bind. specialize (Hc w).
  destruct (c w) as [w1 [e|a]]; cbn [fst] in *; [exact Hc|].
  eapply R_trans; [exact Hc|apply Hk].
Qed.

Lemma preserves_for_each {St} (body : Z -> St -> M (flow * St)) xs :
  (forall x s, preserves R (body x s)) ->
  forall s, preserves R (for_each body xs s).
Proof.
  intros Hb. induction xs as [|x xs IH]; intros s; cbn [for_each].
  - apply preserves_ret.
  - apply preserves_bind; [apply Hb|].
    intros [[] s1]; cbn [fst snd]; [apply IH|apply preserves_ret].
Qed.

End Preserved.

Lemma steady_grows {A} (c : M A) : preserves steady c -> preserves grows c.
Proof. intros H w. apply H. Qed.

Lemma steady_alloc d : preserves steady (alloc d).
Proof. intros w. split; [now exists [d]|now split]. Qed.

Lemma steady_print l : preserves steady (print l).
Proof. intros w. apply (steady_refl w). Qed.

Lemma steady_next_draw : preserves steady next_draw.
Proof. intros w. apply (steady_refl w). Qed.

Lemma grows_set_self f : preserves grows (set_self f).
Proof. intros w. apply (grows_refl w). Qed.

Ltac splits := repeat match goal with |- _ /\ _ => split end.

(** Walks through a computation built from binds, matches and the
    primitives, for the relation whose preorder laws are given. *)
Ltac walk refl trans :=
  repeat first
    [ apply (preserves_bind _ trans); [|intros ?]
    | apply (preserves_ret _ refl)
    | apply (preserves_raise _ refl)
    | apply (preserves_get_self _ refl)
    | apply (preserves_deref _ refl)
    | apply steady_alloc
    | apply steady_print
    | apply steady_next_draw
    | apply grows_set_self
    | assumption
    | solve [ apply steady_grows;
              first [ solve [auto] | apply steady_alloc | apply steady_print
                    | apply steady_next_draw ] ]
    | match goal with
      | |- preserves _ (match ?x with _ => _ end) => destruct x
      | |- preserves _ (if ?b then _ else _) => destruct b
      end ].

Lemma steady_deepcopy a : preserves steady (deepcopy a).
Proof. unfold deepcopy. walk steady_refl steady_trans. Qed.

Lemma steady_sample a : preserves steady (sample a).
Proof. unfold sample. walk steady_refl steady_trans. Qed.

Lemma steady_concat a b : preserves steady (concat a b).
Proof. unfold concat. walk steady_refl steady_trans. Qed.

Lemma steady_index0 a : preserves steady (index0 a).
Proof. unfold index0. walk steady_refl steady_trans. Qed.

Lemma steady_plot_all_tries rs rb : preserves steady (plot_all_tries rs rb).
Proof. unfold plot_all_tries. walk steady_refl steady_trans. Qed.

Section FitFacts.

Variable std : list Z -> float.

Lemma score_run a tl w d :
  nth_error (heap w) a = Some d ->
  score std a tl w =
    (w, match frame_score std tl d with
        | inl e => inl e
        | inr s => inr s
        end).
Proof.
  intros H. unfold score.
  rewrite (bind_inr _ _ _ _ _ (deref_run _ _ _ H)).
  now destruct (frame_score std tl d).
Qed.

Lemma tried_candidate d dn w :
  nth_error (heap (tried d dn w)) (S (length (heap w)))
  = Some (candidate d dn w).
Proof.
  unfold tried, push, tick. cbn [heap].
  replace (S (length (heap w)))
    with (length (heap w ++ [mkFrame (columns d) [drawn_row d w]]))
    by (rewrite length_app; cbn; lia).
  apply nth_error_fresh.
Qed.

Lemma tried_grows d dn w : grows w (tried d dn w).
Proof.
  exists [mkFrame (columns d) [drawn_row d w]; candidate d dn w].
  cbn. now rewrite <- app_assoc.
Qed.

(** One trial, in closed form. *)
Lemma trial_run df tl it cur t L w d dn :
  nth_error (heap w) df = Some d ->
  rows d <> [] ->
  nth_error (heap w) (df_new L) = Some dn ->
  trial std df tl it cur t L w =
    match frame_score std tl (candidate d dn w) with
    | inl e => (tried d dn w, inl e)
    | inr new_std =>
        if SFltb new_std cur then
          ((if details (this w) then
              say (Worked it t (label (drawn_row d w)) cur new_std
                     (shape (candidate d dn w)))
                (tried d dn w)
            else tried d dn w),
           inr (Break,
                mkLocals (S (length (heap w))) (res_std L ++ [new_std])
                  (res_bad L) (not_working L) (Some t)))
        else
          (tried d dn w,
           inr (Next,
                mkLocals (df_new L) (res_std L) (res_bad L)
                  (not_working L ++ [(label (drawn_row d w), new_std)])
                  (Some t)))
    end.
Proof.
  intros Hd Hr Hn. unfold trial.
  rewrite (bind_inr _ _ _ _ _ (sample_run _ _ _ Hd Hr)).
  set (one := mkFrame (columns d) [drawn_row d w]).
  assert (H1 : nth_error (heap (push one (tick w))) (df_new L) = Some dn)
    by (apply nth_error_live; exact Hn).
  assert (H2 : nth_error (heap (push one (tick w))) (length (heap w))
               = Some one) by apply nth_error_fresh.
  rewrite (bind_inr _ _ _ _ _ (concat_run _ _ _ _ _ H1 H2)).
  fold (candidate d dn w). fold (tried d dn w).
  assert (H3 : nth_error (heap (tried d dn w))
                 (length (heap (push one (tick w))))
               = Some (candidate d dn w)) by apply nth_error_fresh.
  assert (H4 : nth_error (heap (tried d dn w)) (length (heap w))
               = Some one) by (apply nth_error_live; exact H2).
  assert (Hlen : length (heap (push one (tick w))) = S (length (heap w)))
    by (cbn; rewrite length_app; cbn; lia).
  unfold bind at 1. rewrite (score_run _ _ _ _ H3).
  destruct (frame_score std tl (candidate d dn w)) as [e|new_std];
    [reflexivity|].
  destruct (SFltb new_std cur).
  - unfold bind at 1, get_self. cbn [this tried push tick].
    destruct (details (this w)).
    + unfold bind at 1.
      rewrite (bind_inr _ _ _ _ _ (index0_run _ _ _ _ _ H4 eq_refl)).
      rewrite (bind_inr _ _ _ _ _ (deref_run _ _ _ H3)).
      unfold print, ret. rewrite Hlen. reflexivity.
    + unfold bind, ret. rewrite Hlen. reflexivity.
  - rewrite (bind_inr _ _ _ _ _ (index0_run _ _ _ _ _ H4 eq_refl)).
    reflexivity.
Qed.

Lemma frame_score_raises tl x e :
  frame_score std tl x = inl e -> missing tl (columns x) <> [].
Proof.
  unfold frame_score, label_sums.
  destruct (missing tl (columns x)); [discriminate|discriminate].
Qed.

Lemma pick_In d k : rows d <> [] -> In (pick d k) (rows d).
Proof.
  intros H. unfold pick. apply nth_In.
  apply Nat.mod_upper_bound.
  destruct (rows d); [congruence|discriminate].
Qed.

(** The try loop of one iteration, started in world [w] with an empty
    [not_working]: it runs out after [m] rejections, or breaks at the
    first candidate that scores below [cur]; it raises only on an empty
    frame or a missing label column. *)
Lemma try_loop_spec df tl it cur m L w d dn :
  nth_error (heap w) df = Some d ->
  nth_error (heap w) (df_new L) = Some dn ->
  not_working L = [] ->
  match for_each (trial std df tl it cur) (range m) L w with
  | (w', inr (Next, T)) =>
      steady w w' /\ stdout w' = stdout w /\
      drawn w' = (drawn w + Z.to_nat m)%nat /\
      df_new T = df_new L /\ res_std T = res_std L /\
      res_bad T = res_bad L /\
      length (not_working T) = Z.to_nat m /\
      rejects std tl d dn w cur (not_working T) /\
      try_ T = (if m <=? 0 then try_ L else Some (m - 1))
  | (w', inr (Break, T)) =>
      exists k s dn',
        Z.of_nat k < m /\ steady w w' /\
        (details (this w) = false -> stdout w' = stdout w) /\
        drawn w' = (drawn w + k + 1)%nat /\
        (length (heap w) <= df_new T)%nat /\
        nth_error (heap w') (df_new T) = Some dn' /\
        accepts std tl d dn cur s dn' /\
        res_std T = res_std L ++ [s] /\
        res_bad T = res_bad L /\
        length (not_working T) = k /\
        rejects std tl d dn w cur (not_working T) /\
        try_ T = Some (Z.of_nat k)
  | (w', inl e) => rows d = [] \/ missing tl (columns dn) <> []
  end.
Proof.
  intros Hd Hn Hnw.
  pose (I := fun (k : nat) (T : locals) (w' : world) =>
    steady w w' /\ stdout w' = stdout w /\
    drawn w' = (drawn w + k)%nat /\
    df_new T = df_new L /\ res_std T = res_std L /\
    res_bad T = res_bad L /\
    length (not_working T) = k /\
    rejects std tl d dn w cur (not_working T) /\
    try_ T = (if (k =? 0)%nat then try_ L else Some (Z.of_nat k - 1))).
  pose (B := fun (k : nat) (T : locals) (w' : world) =>
    exists s dn',
      steady w w' /\
      (details (this w) = false -> stdout w' = stdout w) /\
      drawn w' = (drawn w + k + 1)%nat /\
      (length (heap w) <= df_new T)%nat /\
      nth_error (heap w') (df_new T) = Some dn' /\
      accepts std tl d dn cur s dn' /\
      res_std T = res_std L ++ [s] /\
      res_bad T = res_bad L /\
      length (not_working T) = k /\
      rejects std tl d dn w cur (not_working T) /\
      try_ T = Some (Z.of_nat k)).
  pose (E := fun (_ : exn) (_ : world) =>
    rows d = [] \/ missing tl (columns dn) <> []).
  assert (Hstep : forall k x T w1, nth_error (range m) k = Some x ->
            I k T w1 ->
            match trial std df tl it cur x T w1 with
            | (w', inr (Next, T')) => I (S k) T' w'
            | (w', inr (Break, T')) => B k T' w'
            | (w', inl e) => E e w'
            end).
  { intros k x T w1 Hx (St & Hout & Hdr & Hdf & Hrs & Hrb & Hlen & Hrej & Htry).
    apply range_nth in Hx. destruct Hx as [-> Hk].
    destruct St as (G & Hent & Hthis).
    unfold I, B, E.
    pose proof (grows_live _ _ _ _ G Hd) as Hd1.
    pose proof (grows_live _ _ _ _ G Hn) as Hn1.
    rewrite <- Hdf in Hn1.
    assert (Hcase : rows d = [] \/ rows d <> [])
      by (destruct (rows d); [now left | right; discriminate]).
    destruct Hcase as [Hempty|Hne].
    { unfold trial.
      rewrite (bind_inl _ _ _ _ _ (sample_empty _ _ _ Hd1 Hempty)).
      now left. }
    rewrite (trial_run _ _ _ _ _ _ _ _ _ Hd1 Hne Hn1).
    assert (Hrow : drawn_row d w1 = pick d (entropy w (drawn w + k)))
      by (unfold drawn_row; now rewrite Hent, Hdr).
    assert (Hg : grows w (tried d dn w1)).
    { eapply grows_trans; [exact G|].
      exists [mkFrame (columns d) [drawn_row d w1]; candidate d dn w1].
      cbn. now rewrite <- app_assoc. }
    destruct (frame_score std tl (candidate d dn w1)) as [e|s] eqn:Hs.
    { right. apply frame_score_raises in Hs. exact Hs. }
    destruct (SFltb s cur) eqn:Hlt.
    - exists s, (candidate d dn w1). splits.
      + destruct (details (this w1)); (split; [exact Hg|now split]).
      + intros Hdet. rewrite Hthis, Hdet. cbn. exact Hout.
      + destruct (details (this w1)); cbn; lia.
      + cbn. apply grows_length in G. lia.
      + cbn [df_new].
        assert (Hh : nth_error (heap (tried d dn w1))
                       (S (length (heap w1))) = Some (candidate d dn w1)).
        { unfold tried, push, tick. cbn [heap].
          replace (S (length (heap w1)))
            with (length (heap w1 ++ [mkFrame (columns d) [drawn_row d w1]]))
            by (rewrite length_app; cbn; lia).
          apply nth_error_fresh. }
        destruct (details (this w1)); exact Hh.
      + exists (drawn_row d w1). splits.
        * apply pick_In. exact Hne.
        * reflexivity.
        * exact Hs.
        * exact Hlt.
      + cbn. now rewrite Hrs.
      + exact Hrb.
      + exact Hlen.
      + exact Hrej.
      + reflexivity.
    - splits.
      + split; [exact Hg|now split].
      + exact Hout.
      + cbn. lia.
      + exact Hdf.
      + exact Hrs.
      + exact Hrb.
      + cbn. rewrite length_app. cbn. lia.
      + cbn [not_working].
        intros j p Hj.
        destruct (Nat.lt_ge_cases j (length (not_working T))) as [Hlt'|Hge].
        * rewrite nth_error_app1 in Hj by exact Hlt'. now apply Hrej.
        * rewrite nth_error_app2 in Hj by exact Hge.
          destruct (j - length (not_working T))%nat eqn:Ej.
          2:{ cbn in Hj. destruct n; discriminate. }
          cbn in Hj. inversion Hj; subst p. cbn [fst snd].
          assert (j = k) by lia. subst j.
          rewrite <- Hrow. splits.
          -- reflexivity.
          -- exact Hs.
          -- exact Hlt.
      + cbn [try_]. cbn [Nat.eqb]. f_equal. lia. }
  assert (H0 : I O L w).
  { unfold I. splits; try reflexivity.
    - apply steady_refl.
    - lia.
    - now rewrite Hnw.
    - rewrite Hnw. intros k p Hk. destruct k; discriminate. }
  pose proof (for_each_rule _ (range m) I B E Hstep L w H0) as R.
  destruct (for_each (trial std df tl it cur) (range m) L w)
    as [w' [e|[[] T]]].
  - exact R.
  - rewrite range_length in R.
    destruct R as (St & Hout & Hdr & Hdf & Hrs & Hrb & Hlen & Hrej & Htry).
    splits; try assumption.
    rewrite Htry. destruct (Z.leb_spec m 0).
    + replace (Z.to_nat m) with O by lia. reflexivity.
    + destruct (Nat.eqb_spec (Z.to_nat m) 0); [lia|]. f_equal. lia.
  - rewrite range_length in R. destruct R as (k & Hk & s & dn' & R).
    exists k, s, dn'. split; [lia|exact R].
Qed.

(** One iteration, by outcome: it goes on after an acceptance before the
    last try; it breaks after [m] rejections, and also after an acceptance
    on the last try; it raises only on an empty frame, a missing label
    column, or a try budget that is not a positive integer. *)
Lemma iteration_spec df tl it L w d dn :
  nth_error (heap w) df = Some d ->
  nth_error (heap w) (df_new L) = Some dn ->
  (try_ L = None \/
   exists m, as_index (number_of_tries (this w)) = Some m /\ 1 <= m) ->
  match iteration std df tl it L w with
  | (w', inr (Next, L')) =>
      exists m cur k s dn',
        as_index (number_of_tries (this w)) = Some m /\
        frame_score std tl dn = inr cur /\
        Z.of_nat k + 1 < m /\ steady w w' /\
        (details (this w) = false -> stdout w' = stdout w) /\
        drawn w' = (drawn w + k + 1)%nat /\
        (length (heap w) <= df_new L')%nat /\
        nth_error (heap w') (df_new L') = Some dn' /\
        accepts std tl d dn cur s dn' /\
        res_std L' = res_std L ++ [s] /\
        res_bad L' = res_bad L ++ [not_working L'] /\
        length (not_working L') = k /\
        rejects std tl d dn w cur (not_working L') /\
        try_ L' = Some (Z.of_nat k)
  | (w', inr (Break, L')) =>
      exists m cur,
        as_index (number_of_tries (this w)) = Some m /\ 1 <= m /\
        frame_score std tl dn = inr cur /\
        steady w w' /\
        drawn w' = (drawn w + Z.to_nat m)%nat /\
        res_bad L' = res_bad L /\
        try_ L' = Some (m - 1) /\
        rejects std tl d dn w cur (not_working L') /\
        (details (this w) = false ->
         stdout w'
       = stdout w ++ [NoImprovement (number_of_tries (this w)) it]) /\
        ((df_new L' = df_new L /\ res_std L' = res_std L /\
          length (not_working L') = Z.to_nat m /\
          stdout w' =
            stdout w ++ [NoImprovement (number_of_tries (this w)) it])
         \/
         (exists s dn',
            (length (heap w) <= df_new L')%nat /\
            nth_error (heap w') (df_new L') = Some dn' /\
            accepts std tl d dn cur s dn' /\
            res_std L' = res_std L ++ [s] /\
            length (not_working L') = Z.to_nat (m - 1)))
  | (w', inl e) =>
      rows d = [] \/ missing tl (columns dn) <> [] \/
      ~ (exists m, as_index (number_of_tries (this w)) = Some m /\ 1 <= m)
  end.
Proof.
  intros Hd Hn Hguard. unfold iteration.
  unfold bind at 1. rewrite (score_run _ _ _ _ Hn).
  destruct (frame_score std tl dn) as [e|cur] eqn:Hcur.
  { right; left. eapply frame_score_raises; eassumption. }
  unfold bind at 1, get_self.
  destruct (as_index (number_of_tries (this w))) as [m|] eqn:Hm.
  2:{ right; right. intros (m & Hm' & _). discriminate. }
  set (L0 := mkLocals (df_new L) (res_std L) (res_bad L) [] (try_ L)).
  pose proof (try_loop_spec df tl it cur m L0 w d dn Hd Hn eq_refl) as R.
  unfold bind at 1.
  destruct (for_each (trial std df tl it cur) (range m) L0 w)
    as [w1 [e|[[] T]]]; cbn [snd].
  - destruct R as [R|R]; [now left|right; now left].
  - destruct R as (St & Hout & Hdr & Hdf & Hrs & Hrb & Hlen & Hrej & Htry).
    rewrite Htry. cbn [try_ L0].
    destruct (Z.leb_spec m 0) as [Hle|Hgt].
    + destruct Hguard as [Hnone|(m' & Hm' & Hpos)].
      * rewrite Hnone. right; right. intros (m' & Hm' & Hpos).
        inversion Hm'; subst. lia.
      * inversion Hm'; subst. lia.
    + replace (m - 1 + 1 =? m) with true by (symmetry; apply Z.eqb_eq; lia).
      unfold bind, print, ret.
      exists m, cur. splits; try assumption; try reflexivity.
      * lia.
      * intros _. cbn [stdout say]. now rewrite Hout.
      * left. splits; try assumption. cbn [stdout say]. now rewrite Hout.
  - destruct R as (k & s & dn' & Hk & St & Hout & Hdr & Hfresh & Hlive
                   & Hacc & Hrs & Hrb & Hlen & Hrej & Htry).
    rewrite Htry.
    destruct (Z.eqb_spec (Z.of_nat k + 1) m) as [Hlast|Hmore].
    + unfold bind, print, ret.
      exists m, cur. splits; try assumption; try reflexivity; try lia.
      * cbn [drawn say]. lia.
      * rewrite Htry. f_equal. lia.
      * intros Hdet. cbn [stdout say]. now rewrite (Hout Hdet).
      * right. exists s, dn'. splits; try assumption. lia.
    + unfold ret.
      exists m, cur, k, s, dn'. cbn [df_new res_std res_bad not_working try_].
      splits; try assumption; try reflexivity; try lia.
      now rewrite Hrb.
Qed.

Lemma last_default {A} (l : list A) (a b : A) :
  l <> [] -> last l a = last l b.
Proof.
  induction l as [|x l IH]; [congruence|]. intros _.
  destruct l; [reflexivity|]. cbn [last] in *. apply IH. discriminate.
Qed.

Lemma strictly_decreasing_snoc l x s :
  strictly_decreasing (x :: l) = true ->
  SFltb s (last l x) = true ->
  strictly_decreasing (x :: l ++ [s]) = true.
Proof.
  revert x. induction l as [|a l IH]; intros x H Hs.
  - cbn in *. now rewrite Hs.
  - cbn [strictly_decreasing app] in *.
    apply andb_true_iff in H. destruct H as [H1 H2].
    apply andb_true_iff. split; [exact H1|].
    apply IH; [exact H2|].
    destruct l as [|f l]; [exact Hs|].
    rewrite (last_default (f :: l) a x) by discriminate. exact Hs.
Qed.

Lemma loop_inv_stable tl d base w w' L L' :
  loop_inv std tl d base w L -> grows w w' ->
  df_new L' = df_new L -> res_std L' = res_std L ->
  loop_inv std tl d base w' L'.
Proof.
  intros (Hb & extra & Hlive & Hin & Hlen & Hsc) G Hdf Hrs.
  unfold loop_inv. rewrite Hdf, Hrs. split; [exact Hb|].
  exists extra. splits; try assumption.
  eapply grows_live; eassumption.
Qed.

Lemma loop_inv_accept tl d base w w' L L' dn cur s dn' :
  loop_inv std tl d base w L ->
  nth_error (heap w) (df_new L) = Some dn ->
  frame_score std tl dn = inr cur ->
  accepts std tl d dn cur s dn' ->
  (length (heap w) <= df_new L')%nat ->
  nth_error (heap w') (df_new L') = Some dn' ->
  res_std L' = res_std L ++ [s] ->
  loop_inv std tl d base w' L'.
Proof.
  intros (Hb & extra & Hlive & Hin & Hlen & Hsc) Hn Hcur
    (r & Hr & Hdn' & Hs & Hlt) Hfresh Hlive' Hrs.
  rewrite Hlive in Hn. inversion Hn; subst dn. clear Hn.
  cbn [columns rows] in Hdn'. rewrite <- app_assoc in Hdn'.
  split.
  - assert (df_new L < length (heap w))%nat
      by (apply nth_error_Some; congruence).
    lia.
  - exists (extra ++ [r]). rewrite Hrs. splits.
    + now rewrite <- Hdn'.
    + apply Forall_app. split; [exact Hin|]. now constructor.
    + rewrite !length_app. cbn. lia.
    + intros s0 Hs0. destruct (Hsc s0 Hs0) as [Hdec Hlast].
      rewrite Hlast in Hcur. inversion Hcur; subst cur.
      split.
      * apply strictly_decreasing_snoc; assumption.
      * rewrite last_last, <- Hdn'. exact Hs.
Qed.

(** The iteration loop over any list of iteration indices, from any
    locals that satisfy the invariant. *)
Lemma loop_spec df tl d base xs L w :
  nth_error (heap w) df = Some d ->
  loop_inv std tl d base w L ->
  (try_ L = None \/
   exists m, as_index (number_of_tries (this w)) = Some m /\ 1 <= m) ->
  match for_each (iteration std df tl) xs L w with
  | (w', inr (f, L')) =>
      steady w w' /\ loop_inv std tl d base w' L' /\
      exists k,
        length (res_bad L') = (length (res_bad L) + k)%nat /\
        match f with
        | Next =>
            k = length xs /\
            length (res_std L') = (length (res_std L) + k)%nat
        | Break =>
            (k < length xs)%nat /\
            (length (res_std L') = (length (res_std L) + k)%nat \/
             length (res_std L') = (length (res_std L) + S k)%nat)
        end
  | (w', inl e) => invalid tl d w
  end.
Proof.
  intros Hd Hinv Hguard.
  pose (I := fun (k : nat) (L' : locals) (w' : world) =>
    steady w w' /\ loop_inv std tl d base w' L' /\
    length (res_bad L') = (length (res_bad L) + k)%nat /\
    length (res_std L') = (length (res_std L) + k)%nat /\
    (try_ L' = None \/
     exists m, as_index (number_of_tries (this w)) = Some m /\ 1 <= m)).
  pose (B := fun (k : nat) (L' : locals) (w' : world) =>
    steady w w' /\ loop_inv std tl d base w' L' /\
    length (res_bad L') = (length (res_bad L) + k)%nat /\
    (length (res_std L') = (length (res_std L) + k)%nat \/
     length (res_std L') = (length (res_std L) + S k)%nat)).
  pose (E := fun (_ : exn) (_ : world) => invalid tl d w).
  assert (Hstep : forall k x L1 w1, nth_error xs k = Some x ->
            I k L1 w1 ->
            match iteration std df tl x L1 w1 with
            | (w', inr (Next, L')) => I (S k) L' w'
            | (w', inr (Break, L')) => B k L' w'
            | (w', inl e) => E e w'
            end).
  { intros k x L1 w1 _ (St & Hinv1 & Hrb1 & Hrs1 & Hg1).
    unfold I, B, E.
    pose proof St as (G & Hent & Hthis).
    pose proof (grows_live _ _ _ _ G Hd) as Hd1.
    pose proof Hinv1 as (Hb & extra & Hlive & Hin & Hlen & Hsc).
    rewrite <- Hthis in Hg1.
    pose proof (iteration_spec df tl x L1 w1 d _ Hd1 Hlive Hg1) as R.
    destruct (iteration std df tl x L1 w1) as [w' [e|[[] L']]].
    - unfold invalid. rewrite <- Hthis.
      destruct R as [R|[R|R]]; [now left| |right; now right].
      right. now left.
    - destruct R as (m & cur & j & s & dn' & Hm & Hcur & Hj & St' & _ & _
                     & Hfresh & Hlive' & Hacc & Hrs & Hrb & _ & _ & _).
      splits.
      + eapply steady_trans; eassumption.
      + eapply loop_inv_accept; eassumption.
      + rewrite Hrb, length_app. cbn. lia.
      + rewrite Hrs, length_app. cbn. lia.
      + right. exists m. rewrite <- Hthis. split; [exact Hm|lia].
    - destruct R as (m & cur & Hm & Hpos & Hcur & St' & _ & Hrb & _ & _ & _
                     & [(Hdf & Hrs & _)|(s & dn' & Hfresh & Hlive' & Hacc
                                         & Hrs & _)]).
      + splits.
        * eapply steady_trans; eassumption.
        * eapply loop_inv_stable; try eassumption. apply St'.
        * rewrite Hrb. lia.
        * left. rewrite Hrs. lia.
      + splits.
        * eapply steady_trans; eassumption.
        * eapply loop_inv_accept; eassumption.
        * rewrite Hrb. lia.
        * right. rewrite Hrs, length_app. cbn. lia. }
  assert (H0 : I O L w).
  { unfold I. splits; try assumption; try lia. apply steady_refl. }
  pose proof (for_each_rule _ xs I B E Hstep L w H0) as R.
  destruct (for_each (iteration std df tl) xs L w) as [w' [e|[[] L']]].
  - exact R.
  - destruct R as (St & Hinv' & Hrb & Hrs & _).
    splits; try assumption. exists (length xs). splits; auto.
  - destruct R as (k & Hk & St & Hinv' & Hrb & Hrs).
    splits; try assumption. exists k. splits; auto.
Qed.

Lemma steady_score a tl : preserves steady (score std a tl).
Proof. unfold score. walk steady_refl steady_trans. Qed.

Lemma steady_trial df tl it cur t L :
  preserves steady (trial std df tl it cur t L).
Proof.
  pose proof steady_sample. pose proof steady_concat.
  pose proof steady_index0. pose proof steady_score.
  unfold trial. walk steady_refl steady_trans.
Qed.

Lemma steady_iteration df tl it L :
  preserves steady (iteration std df tl it L).
Proof.
  pose proof steady_score. unfold iteration.
  walk steady_refl steady_trans.
  apply (preserves_for_each _ steady_refl steady_trans).
  intros. apply steady_trial.
Qed.

Lemma steady_loop df tl xs L :
  preserves steady (for_each (iteration std df tl) xs L).
Proof.
  apply (preserves_for_each _ steady_refl steady_trans).
  intros. apply steady_iteration.
Qed.

(** [fit] up to its loop, and after it. *)
Lemma fit_run df tl w d :
  nth_error (heap w) df = Some d ->
  fit std df tl w =
    match as_index (number_of_adds (this w)) with
    | None => (prepared tl d w, inl TypeError)
    | Some n =>
        match for_each (iteration std df tl) (range n)
                (start (S (length (heap w)))) (prepared tl d w) with
        | (w', inl e) => (w', inl e)
        | (w', inr r) => finish (snd r) w'
        end
    end.
Proof.
  intros Hd. unfold fit, reset.
  unfold bind at 1, set_self at 1.
  unfold bind at 1, set_self at 1.
  assert (H1 : nth_error
                 (heap (update (with_target_list tl) (update clear w))) df
               = Some d) by exact Hd.
  rewrite (bind_inr _ _ _ _ _ (deepcopy_run _ _ _ H1)).
  unfold bind at 1, set_self at 1.
  cbn [heap update].
  set (w3 := update (with_df (length (heap w)))
               (push d (update (with_target_list tl) (update clear w)))).
  assert (H2 : nth_error (heap w3) df = Some d)
    by (apply nth_error_live; exact Hd).
  rewrite (bind_inr _ _ _ _ _ (deepcopy_run _ _ _ H2)).
  unfold bind at 1, get_self.
  change (push d w3) with (prepared tl d w).
  change (this (prepared tl d w)) with
    (with_df (length (heap w)) (with_target_list tl (clear (this w)))).
  cbn [number_of_adds with_df with_target_list clear].
  destruct (as_index (number_of_adds (this w))) as [n|]; [|reflexivity].
  replace (length (heap w3)) with (S (length (heap w)))
    by (cbn; rewrite length_app; cbn; lia).
  unfold bind at 1.
  destruct (for_each (iteration std df tl) (range n)
              (start (S (length (heap w)))) (prepared tl d w))
    as [w' [e|r]]; reflexivity.
Qed.

Lemma finish_run L w :
  finish L w =
    (update (with_results L) w,
     if (0 <? length (res_std L))%nat && plot (this w) then
       match res_bad L with
       | [] => inl IndexError
       | [] :: _ => inl ValueError
       | (_ :: _) :: _ => inr (RetPair (df_new L) plt)
       end
     else inr (RetFrame (df_new L))).
Proof.
  unfold finish, bind, set_self, get_self, plot_all_tries, ret, raise.
  cbn [this update with_results plot].
  destruct ((0 <? length (res_std L))%nat && plot (this w));
    [|reflexivity].
  destruct (res_bad L) as [|[|p first] rest]; reflexivity.
Qed.

Lemma prepared_live tl d w a x :
  nth_error (heap w) a = Some x ->
  nth_error (heap (prepared tl d w)) a = Some x.
Proof.
  intros H. unfold prepared, push, update. cbn [heap].
  now do 2 apply nth_error_live.
Qed.

Lemma prepared_steady tl d w :
  grows w (prepared tl d w) /\ entropy (prepared tl d w) = entropy w /\
  drawn (prepared tl d w) = drawn w /\
  stdout (prepared tl d w) = stdout w /\
  number_of_adds (this (prepared tl d w)) = number_of_adds (this w) /\
  number_of_tries (this (prepared tl d w)) = number_of_tries (this w) /\
  details (this (prepared tl d w)) = details (this w) /\
  plot (this (prepared tl d w)) = plot (this w).
Proof.
  splits; try reflexivity.
  exists [d; d]. unfold prepared, push, update. cbn [heap].
  now rewrite <- app_assoc.
Qed.

Lemma loop_inv_start tl d w :
  loop_inv std tl d (length (heap w)) (prepared tl d w)
    (start (S (length (heap w)))).
Proof.
  split; [cbn; lia|]. exists []. cbn [df_new res_std start]. splits.
  - unfold prepared, push, update. cbn [heap].
    replace (S (length (heap w))) with (length (heap w ++ [d]))
      by (rewrite length_app; cbn; lia).
    rewrite nth_error_fresh, app_nil_r. now destruct d.
  - constructor.
  - reflexivity.
  - intros s0 Hs0. split; [reflexivity|].
    rewrite app_nil_r. cbn [last]. now destruct d.
Qed.

(** A run of [fit] either raises before it stores any result, or runs its
    loop to the end and finishes. *)
Lemma fit_results df tl w d w' r :
  nth_error (heap w) df = Some d ->
  fit std df tl w = (w', r) ->
  (self_df_new (this w') = None /\ self_res_std (this w') = None /\
   self_res_bad (this w') = None /\ exists e, r = inl e) \/
  (exists n f L wl,
     as_index (number_of_adds (this w)) = Some n /\
     for_each (iteration std df tl) (range n)
       (start (S (length (heap w)))) (prepared tl d w) = (wl, inr (f, L)) /\
     (w', r) = finish L wl).
Proof.
  intros Hd Hfit. rewrite (fit_run _ _ _ _ Hd) in Hfit.
  destruct (as_index (number_of_adds (this w))) as [n|].
  - pose proof (steady_loop df tl (range n) (start (S (length (heap w))))
                  (prepared tl d w)) as St.
    destruct (for_each (iteration std df tl) (range n)
                (start (S (length (heap w)))) (prepared tl d w))
      as [wl [e|[f L]]] eqn:Hloop.
    + left. inversion Hfit; subst. cbn [fst] in St.
      destruct St as (_ & _ & Hthis). rewrite Hthis. cbn.
      splits; eauto.
    + right. exists n, f, L, wl. splits; auto.
  - left. inversion Hfit; subst. cbn. splits; eauto.
Qed.

(** A stall: once iterations [0 .. i-1] have gone on, if all [m] tries of
    iteration [i] are made and none is accepted, the loop over any larger
    range ends there, in the world and with the locals of that try loop,
    but for the printed line. *)
Lemma stall_run df tl w d n i m wi Li cur ws T :
  nth_error (heap w) df = Some d ->
  as_index (number_of_tries (this w)) = Some m -> 1 <= m ->
  0 <= i < n ->
  for_each (iteration std df tl) (range i)
    (start (S (length (heap w)))) (prepared tl d w)
    = (wi, inr (Next, Li)) ->
  score std (df_new Li) tl wi = (wi, inr cur) ->
  for_each (trial std df tl i cur) (range m)
    (mkLocals (df_new Li) (res_std Li) (res_bad Li) [] (try_ Li)) wi
    = (ws, inr (Next, T)) ->
  for_each (iteration std df tl) (range n)
    (start (S (length (heap w)))) (prepared tl d w)
    = (say (NoImprovement (number_of_tries (this w)) i) ws,
       inr (Break, T)) /\
  length (res_std Li) = Z.to_nat i /\ length (res_bad Li) = Z.to_nat i /\
  df_new T = df_new Li /\ res_std T = res_std Li /\
  res_bad T = res_bad Li /\
  length (not_working T) = Z.to_nat m /\
  drawn ws = (drawn wi + Z.to_nat m)%nat /\
  loop_inv std tl d (length (heap w)) ws T.
Proof.
  intros Hd Hm Hpos Hi Hpre Hscore Htry.
  pose proof (prepared_steady tl d w)
    as (Gp & _ & _ & _ & _ & Htries & _ & _).
  pose proof (prepared_live tl d w _ _ Hd) as Hdp.
  assert (Hguard : try_ (start (S (length (heap w)))) = None \/
            exists m0, as_index (number_of_tries
                                   (this (prepared tl d w))) = Some m0
                       /\ 1 <= m0) by (now left).
  pose proof (loop_spec df tl d (length (heap w)) (range i) _ _ Hdp
                (loop_inv_start tl d w) Hguard) as R.
  rewrite Hpre in R.
  destruct R as (St & Hinv & k & Hrb & -> & Hrs).
  rewrite range_length in Hrb, Hrs. cbn in Hrb, Hrs.
  pose proof St as (G & Hent & Hthis).
  pose proof (grows_live _ _ _ _ G Hdp) as Hdi.
  pose proof Hinv as (_ & extra & Hlive & _).
  pose proof (try_loop_spec df tl i cur m
                (mkLocals (df_new Li) (res_std Li) (res_bad Li) []
                   (try_ Li)) wi d _ Hdi Hlive eq_refl) as R.
  rewrite Htry in R. cbn [df_new res_std res_bad try_] in R.
  destruct R as (St' & Hout & Hdr & Hdf & Hrs' & Hrb' & Hlen & _ & Htr).
  destruct (Z.leb_spec m 0) as [Hle|_]; [lia|].
  assert (Hiter : iteration std df tl i Li wi =
            (say (NoImprovement (number_of_tries (this w)) i) ws,
             inr (Break, T))).
  { unfold iteration. rewrite (bind_inr _ _ _ _ _ Hscore).
    unfold bind at 1, get_self. rewrite Hthis, Htries, Hm.
    rewrite (bind_inr _ _ _ _ _ Htry). cbn [snd]. rewrite Htr.
    replace (m - 1 + 1 =? m) with true by (symmetry; apply Z.eqb_eq; lia).
    reflexivity. }
  destruct (range_split i n Hi) as [rest Hsplit].
  splits; try assumption.
  - rewrite Hsplit, for_each_app, Hpre. cbn [for_each].
    now rewrite (bind_inr _ _ _ _ _ Hiter).
  - eapply loop_inv_stable; try eassumption. apply St'.
Qed.

(** Every run of [fit], also one that raises, leaves the objects of the
    store it started in as they were. *)
Lemma fit_grows df tl : preserves grows (fit std df tl).
Proof.
  pose proof steady_deepcopy. pose proof steady_plot_all_tries.
  pose proof steady_loop.
  unfold fit, reset, finish. walk grows_refl grows_trans.
Qed.

Lemma prepared_copy tl d w :
  nth_error (heap (prepared tl d w)) (S (length (heap w))) = Some d.
Proof.
  unfold prepared, push, update. cbn [heap].
  replace (S (length (heap w))) with (length (heap w ++ [d]))
    by (rewrite length_app; cbn; lia).
  apply nth_error_fresh.
Qed.

Lemma SFltb_nan_r x : SFltb x S754_nan = false.
Proof. now destruct x. Qed.

Lemma SFltb_nan_l x : SFltb S754_nan x = false.
Proof. reflexivity. Qed.

Lemma SFltb_irrefl x : SFltb x x = false.
Proof.
  unfold SFltb. destruct x as [[]|[]| |[] m e]; cbn; try reflexivity;
    rewrite Z.compare_refl, Pos.compare_cont_refl; reflexivity.
Qed.

Lemma label_sums_length tl d sums :
  label_sums tl d = inr sums -> length sums = length tl.
Proof.
  unfold label_sums. destruct (missing tl (columns d)); [|discriminate].
  intros H. inversion H. now rewrite length_map.
Qed.

(** ** The claims that hold of every run *)

(** C6. The working frame always has the rows of the input plus one row
    per accepted score: at the head of every iteration of the loop,
    whatever the list of iterations run so far, after every trial that
    starts from such a frame, and in the results that [fit] stores and
    returns, where the number of accepted scores is also at most
    [number_of_adds]. *)
Theorem C6_working_set_size df tl w d :
  nth_error (heap w) df = Some d ->
  (forall xs w' f L,
     for_each (iteration std df tl) xs (start (S (length (heap w))))
       (prepared tl d w) = (w', inr (f, L)) ->
     exists dn,
       nth_error (heap w') (df_new L) = Some dn /\
       length (rows dn) = (length (rows d) + length (res_std L))%nat /\
       (length (res_std L) <= length xs)%nat) /\
  (forall it cur t L wt dn w' f L',
     nth_error (heap wt) df = Some d ->
     nth_error (heap wt) (df_new L) = Some dn ->
     length (rows dn) = (length (rows d) + length (res_std L))%nat ->
     trial std df tl it cur t L wt = (w', inr (f, L')) ->
     exists dn',
       nth_error (heap w') (df_new L') = Some dn' /\
       length (rows dn') = (length (rows d) + length (res_std L'))%nat) /\
  (forall w' r a accepted,
     fit std df tl w = (w', r) ->
     self_df_new (this w') = Some a ->
     self_res_std (this w') = Some accepted ->
     exists dn n,
       nth_error (heap w') a = Some dn /\
       length (rows dn) = (length (rows d) + length accepted)%nat /\
       as_index (number_of_adds (this w)) = Some n /\
       (length accepted <= Z.to_nat n)%nat /\
       (forall v, r = inr v -> v = RetFrame a \/ v = RetPair a plt)).
Proof.
  intros Hd.
  assert (Hloop : forall xs w' f L,
    for_each (iteration std df tl) xs (start (S (length (heap w))))
      (prepared tl d w) = (w', inr (f, L)) ->
    exists dn,
      nth_error (heap w') (df_new L) = Some dn /\
      length (rows dn) = (length (rows d) + length (res_std L))%nat /\
      (length (res_std L) <= length xs)%nat).
  { intros xs w' f L Hrun.
    pose proof (loop_spec df tl d (length (heap w)) xs _ _
                  (prepared_live tl d w _ _ Hd) (loop_inv_start tl d w)
                  (or_introl eq_refl)) as R.
    rewrite Hrun in R.
    destruct R as (_ & (_ & extra & Hlive & _ & Hlen & _) & k & _ & Hk).
    eexists. splits; [exact Hlive| |].
    - cbn [rows]. rewrite length_app. lia.
    - cbn in Hk. destruct f; lia. }
  split; [exact Hloop|]. split.
  { intros it cur t L wt dn w' f L' Hdt Hn Hsize Hrun.
    assert (Hcase : rows d = [] \/ rows d <> [])
      by (destruct (rows d); [now left | right; discriminate]).
    destruct Hcase as [Hempty|Hne].
    { unfold trial in Hrun.
      rewrite (bind_inl _ _ _ _ _ (sample_empty _ _ _ Hdt Hempty)) in Hrun.
      discriminate. }
    rewrite (trial_run _ _ _ _ _ _ _ _ _ Hdt Hne Hn) in Hrun.
    destruct (frame_score std tl (candidate d dn wt)) as [e|s];
      [discriminate|].
    destruct (SFltb s cur); inversion Hrun; subst; clear Hrun.
    - exists (candidate d dn wt). cbn [df_new res_std]. split.
      + destruct (details (this wt)); apply tried_candidate.
      + cbn [candidate rows]. rewrite !length_app. cbn [length]. lia.
    - exists dn. cbn [df_new res_std]. split; [|exact Hsize].
      eapply grows_live; [apply tried_grows|exact Hn]. }
  intros w' r a accepted Hfit Ha Hacc.
  destruct (fit_results _ _ _ _ _ _ Hd Hfit)
    as [(_ & Hnone & _)|(n & f & L & wl & Hn & Hrun & Hfin)];
    [congruence|].
  rewrite finish_run in Hfin. inversion Hfin; subst w' r. clear Hfin.
  cbn [this update with_results self_df_new self_res_std] in Ha, Hacc.
  inversion Ha; subst a. inversion Hacc; subst accepted.
  destruct (Hloop _ _ _ _ Hrun) as (dn & Hlive & Hsize & Hle).
  rewrite range_length in Hle.
  exists dn, n. splits; try assumption.
  intros v Hv.
  destruct ((0 <? length (res_std L))%nat && plot (this wl)).
  - destruct (res_bad L) as [|[|p first] rest]; inversion Hv; now right.
  - inversion Hv. now left.
Qed.

Lemma SFltb_irrefl_eq x y : SFeqb x y = true -> SFltb x y = false.
Proof.
  unfold SFeqb, SFltb. destruct (SFcompare x y) as [[]|]; congruence.
Qed.

(** C5. A trial accepts its candidate exactly when the candidate's score
    is below the iteration's current score, and a score equal to the
    current one is rejected; an iteration that accepts leaves a working
    frame that scores below the one it started from; the accepted scores
    that [fit] stores descend strictly from the score of the input to the
    score of the returned frame. *)
Theorem C5_strict_improvement df tl w d :
  nth_error (heap w) df = Some d ->
  (forall it cur t L wt dn new_std,
     nth_error (heap wt) df = Some d -> rows d <> [] ->
     nth_error (heap wt) (df_new L) = Some dn ->
     frame_score std tl (candidate d dn wt) = inr new_std ->
     (SFltb new_std cur = true <->
      exists w' L', trial std df tl it cur t L wt = (w', inr (Break, L')) /\
                    res_std L' = res_std L ++ [new_std]) /\
     (SFeqb new_std cur = true ->
      exists w' L', trial std df tl it cur t L wt = (w', inr (Next, L')) /\
                    res_std L' = res_std L /\ df_new L' = df_new L)) /\
  (forall it L wi dn w' f L',
     nth_error (heap wi) df = Some d ->
     nth_error (heap wi) (df_new L) = Some dn ->
     (try_ L = None \/
      exists m, as_index (number_of_tries (this wi)) = Some m /\ 1 <= m) ->
     iteration std df tl it L wi = (w', inr (f, L')) ->
     res_std L' <> res_std L ->
     exists cur s dn',
       frame_score std tl dn = inr cur /\
       nth_error (heap w') (df_new L') = Some dn' /\
       frame_score std tl dn' = inr s /\
       SFltb s cur = true /\ res_std L' = res_std L ++ [s]) /\
  (forall w' r a accepted s0,
     fit std df tl w = (w', r) ->
     self_df_new (this w') = Some a ->
     self_res_std (this w') = Some accepted ->
     frame_score std tl d = inr s0 ->
     strictly_decreasing (s0 :: accepted) = true /\
     exists dn, nth_error (heap w') a = Some dn /\
                frame_score std tl dn = inr (last accepted s0)).
Proof.
  intros Hd. splits.
  - intros it cur t L wt dn new_std Hdt Hne Hn Hs.
    pose proof (trial_run df tl it cur t L wt d dn Hdt Hne Hn) as Ht.
    rewrite Hs in Ht. split.
    + split.
      * intros Hlt. rewrite Hlt in Ht. eauto.
      * intros (w' & L' & Hrun & _). rewrite Hrun in Ht.
        destruct (SFltb new_std cur); [reflexivity|discriminate].
    + intros Heq. rewrite (SFltb_irrefl_eq _ _ Heq) in Ht. eauto.
  - intros it L wi dn w' f L' Hdi Hn Hguard Hrun Hneq.
    pose proof (iteration_spec df tl it L wi d dn Hdi Hn Hguard) as R.
    rewrite Hrun in R. destruct f.
    + destruct R as (m & cur & k & s & dn' & _ & Hcur & _ & _ & _ & _ & _
                     & Hlive & (r & _ & _ & Hs & Hlt) & Hrs & _).
      exists cur, s, dn'. splits; assumption.
    + destruct R as (m & cur & _ & _ & Hcur & _ & _ & _ & _ & _ & _
                     & [(_ & Hrs & _)|(s & dn' & _ & Hlive
                                        & (r & _ & _ & Hs & Hlt) & Hrs & _)]).
      * congruence.
      * exists cur, s, dn'. splits; assumption.
  - intros w' r a accepted s0 Hfit Ha Hacc Hs0.
    destruct (fit_results _ _ _ _ _ _ Hd Hfit)
      as [(_ & Hnone & _)|(n & f & L & wl & Hn & Hrun & Hfin)];
      [congruence|].
    rewrite finish_run in Hfin. inversion Hfin; subst w' r. clear Hfin.
    cbn [this update with_results self_df_new self_res_std] in Ha, Hacc.
    inversion Ha; subst a. inversion Hacc; subst accepted.
    pose proof (loop_spec df tl d (length (heap w)) (range n) _ _
                  (prepared_live tl d w _ _ Hd) (loop_inv_start tl d w)
                  (or_introl eq_refl)) as R.
    rewrite Hrun in R.
    destruct R as (_ & (_ & extra & Hlive & _ & _ & Hsc) & _).
    destruct (Hsc s0 Hs0) as [Hdec Hlast].
    split; [exact Hdec|]. eexists. split; [exact Hlive|exact Hlast].
Qed.

(** C10. [fit] never changes an object that was in the store when it was
    called, the input frame among them, whether it returns or raises; the
    frame it returns is another, newer object, made of the rows of the
    input, in order, followed by rows of the input, index labels
    included. *)
Theorem C10_input_not_mutated df tl w d w' r :
  nth_error (heap w) df = Some d ->
  fit std df tl w = (w', r) ->
  nth_error (heap w') df = Some d /\
  (forall a x, nth_error (heap w) a = Some x ->
               nth_error (heap w') a = Some x) /\
  (forall a p, r = inr (RetFrame a) \/ r = inr (RetPair a p) ->
     a <> df /\ (length (heap w) <= a)%nat /\
     exists extra,
       nth_error (heap w') a
         = Some (mkFrame (columns d) (rows d ++ extra)) /\
       Forall (fun row => In row (rows d)) extra).
Proof.
  intros Hd Hfit.
  pose proof (fit_grows df tl w) as G. rewrite Hfit in G. cbn [fst] in G.
  splits.
  - eapply grows_live; eassumption.
  - intros a x Ha. eapply grows_live; eassumption.
  - intros a p Hr.
    destruct (fit_results _ _ _ _ _ _ Hd Hfit)
      as [(_ & _ & _ & e & He)|(n & f & L & wl & Hn & Hrun & Hfin)].
    { destruct Hr; congruence. }
    rewrite finish_run in Hfin. inversion Hfin as [[Hw Hret]]. clear Hfin.
    assert (Ha : a = df_new L).
    { rewrite Hret in Hr.
      destruct ((0 <? length (res_std L))%nat && plot (this wl)).
      - destruct (res_bad L) as [|[|q first] rest];
          destruct Hr as [Hr|Hr]; inversion Hr; reflexivity.
      - destruct Hr as [Hr|Hr]; inversion Hr; reflexivity. }
    subst a.
    pose proof (loop_spec df tl d (length (heap w)) (range n) _ _
                  (prepared_live tl d w _ _ Hd) (loop_inv_start tl d w)
                  (or_introl eq_refl)) as R.
    rewrite Hrun in R.
    destruct R as (_ & (Hb & extra & Hlive & Hin & _ & _) & _).
    assert (df < length (heap w))%nat
      by (apply nth_error_Some; congruence).
    splits; [lia|lia|].
    exists extra. split; [|exact Hin]. exact Hlive.
Qed.

(** C3. A stall ends the run. If iterations [0 .. i-1] went on and all
    [m] tries of iteration [i] are made without an acceptance, then for
    every [number_of_adds] above [i] the loop ends at that iteration:
    [fit] finishes in the world of the stalled try loop plus the printed
    line, so no draw and no object is added after it; exactly [i] scores
    have been accepted and the working frame is the one iteration [i]
    started from, the input plus [i] rows. *)
Theorem C3_stall_ends_run df tl w d n i m wi Li cur ws T :
  nth_error (heap w) df = Some d ->
  as_index (number_of_adds (this w)) = Some n ->
  as_index (number_of_tries (this w)) = Some m -> 1 <= m ->
  0 <= i < n ->
  for_each (iteration std df tl) (range i)
    (start (S (length (heap w)))) (prepared tl d w)
    = (wi, inr (Next, Li)) ->
  score std (df_new Li) tl wi = (wi, inr cur) ->
  for_each (trial std df tl i cur) (range m)
    (mkLocals (df_new Li) (res_std Li) (res_bad Li) [] (try_ Li)) wi
    = (ws, inr (Next, T)) ->
  fst (fit std df tl w)
    = update (with_results T)
        (say (NoImprovement (number_of_tries (this w)) i) ws) /\
  drawn (fst (fit std df tl w)) = (drawn wi + Z.to_nat m)%nat /\
  heap (fst (fit std df tl w)) = heap ws /\
  length (res_std T) = Z.to_nat i /\
  res_std T = res_std Li /\ df_new T = df_new Li /\
  exists dn,
    nth_error (heap (fst (fit std df tl w))) (df_new T) = Some dn /\
    length (rows dn) = (length (rows d) + Z.to_nat i)%nat.
Proof.
  intros Hd Hn Hm Hpos Hi Hpre Hscore Htry.
  destruct (stall_run df tl w d n i m wi Li cur ws T Hd Hm Hpos Hi Hpre
              Hscore Htry)
    as (Hrun & Hlen & _ & Hdf & Hrs & _ & _ & Hdr & Hinv).
  assert (Hfit : fst (fit std df tl w)
            = update (with_results T)
                (say (NoImprovement (number_of_tries (this w)) i) ws)).
  { rewrite (fit_run _ _ _ _ Hd), Hn, Hrun. cbn [snd].
    now rewrite finish_run. }
  rewrite Hfit. cbn [drawn heap update say].
  splits; try assumption; try reflexivity.
  - congruence.
  - destruct Hinv as (_ & extra & Hlive & _ & Hex & _).
    eexists. split; [exact Hlive|].
    cbn [rows]. rewrite length_app, Hex, Hrs. lia.
Qed.

(** C7, as the code has it. [res_bad] gains an entry only from an
    iteration that goes on to the next: that iteration's [not_working],
    the pairs of index label and rejected score of its draws, in order.
    A run whose iterations all go on stores one entry per iteration. The
    list of a stalled iteration is dropped: after a stall at iteration
    [i] the stored [res_bad] is the one iteration [i] started with, [i]
    entries long, although [m] pairs were collected. *)
Theorem C7_rejected_history df tl w d :
  nth_error (heap w) df = Some d ->
  (forall it L wi dn w' L',
     nth_error (heap wi) df = Some d ->
     nth_error (heap wi) (df_new L) = Some dn ->
     (try_ L = None \/
      exists m, as_index (number_of_tries (this wi)) = Some m /\ 1 <= m) ->
     iteration std df tl it L wi = (w', inr (Next, L')) ->
     exists cur,
       frame_score std tl dn = inr cur /\
       res_bad L' = res_bad L ++ [not_working L'] /\
       rejects std tl d dn wi cur (not_working L') /\
       drawn w' = (drawn wi + length (not_working L') + 1)%nat) /\
  (forall n w' L,
     for_each (iteration std df tl) (range n)
       (start (S (length (heap w)))) (prepared tl d w)
       = (w', inr (Next, L)) ->
     length (res_bad L) = Z.to_nat n) /\
  (forall n i m wi Li cur ws T,
     as_index (number_of_adds (this w)) = Some n ->
     as_index (number_of_tries (this w)) = Some m -> 1 <= m ->
     0 <= i < n ->
     for_each (iteration std df tl) (range i)
       (start (S (length (heap w)))) (prepared tl d w)
       = (wi, inr (Next, Li)) ->
     score std (df_new Li) tl wi = (wi, inr cur) ->
     for_each (trial std df tl i cur) (range m)
       (mkLocals (df_new Li) (res_std Li) (res_bad Li) [] (try_ Li)) wi
       = (ws, inr (Next, T)) ->
     self_res_bad (this (fst (fit std df tl w))) = Some (res_bad Li) /\
     length (res_bad Li) = Z.to_nat i /\
     length (not_working T) = Z.to_nat m).
Proof.
  intros Hd. splits.
  - intros it L wi dn w' L' Hdi Hn Hguard Hrun.
    pose proof (iteration_spec df tl it L wi d dn Hdi Hn Hguard) as R.
    rewrite Hrun in R.
    destruct R as (m & cur & k & s & dn' & _ & Hcur & _ & _ & _ & Hdr & _
                   & _ & _ & _ & Hrb & Hlen & Hrej & _).
    exists cur. splits; try assumption. now rewrite Hlen.
  - intros n w' L Hrun.
    pose proof (loop_spec df tl d (length (heap w)) (range n) _ _
                  (prepared_live tl d w _ _ Hd) (loop_inv_start tl d w)
                  (or_introl eq_refl)) as R.
    rewrite Hrun in R. destruct R as (_ & _ & k & Hrb & -> & _).
    rewrite Hrb, range_length. reflexivity.
  - intros n i m wi Li cur ws T Hn Hm Hpos Hi Hpre Hscore Htry.
    destruct (stall_run df tl w d n i m wi Li cur ws T Hd Hm Hpos Hi Hpre
                Hscore Htry)
      as (Hrun & _ & Hlen & _ & _ & Hrb & Hnw & _).
    splits; try assumption.
    rewrite (fit_run _ _ _ _ Hd), Hn, Hrun. cbn [snd].
    rewrite finish_run. cbn. now rewrite Hrb.
Qed.

(** C9. Below two label columns the score is not-a-number instead of an
    exception (given that [Series.std] is undefined there); not-a-number
    is below nothing and nothing is below it; so on a non-empty frame that
    has the label columns, with positive integer budgets, every one of the
    [m] tries of iteration 0 is rejected and the run stalls there: [fit]
    prints the line for iteration 0 and returns a copy of the input, with
    no accepted score. *)
Theorem C9_undefined_score_stalls df tl w d n m :
  (forall v, (length v < 2)%nat -> std v = S754_nan) ->
  (length tl < 2)%nat ->
  nth_error (heap w) df = Some d ->
  rows d <> [] -> missing tl (columns d) = [] ->
  as_index (number_of_adds (this w)) = Some n -> 1 <= n ->
  as_index (number_of_tries (this w)) = Some m -> 1 <= m ->
  frame_score std tl d = inr S754_nan /\
  (forall x, SFltb x S754_nan = false /\ SFltb S754_nan x = false) /\
  exists w',
    fit std df tl w = (w', inr (RetFrame (S (length (heap w))))) /\
    nth_error (heap w') (S (length (heap w))) = Some d /\
    drawn w' = (drawn w + Z.to_nat m)%nat /\
    stdout w' = stdout w ++ [NoImprovement (number_of_tries (this w)) 0] /\
    self_res_std (this w') = Some [] /\
    self_res_bad (this w') = Some [].
Proof.
  intros Hnan Hk Hd Hne Hmiss Hn Hnpos Hm Hmpos.
  assert (Hscore : frame_score std tl d = inr S754_nan).
  { unfold frame_score.
    destruct (label_sums tl d) as [e|sums] eqn:Hsums.
    - unfold label_sums in Hsums. rewrite Hmiss in Hsums. discriminate.
    - rewrite Hnan; [reflexivity|].
      rewrite (label_sums_length _ _ _ Hsums). exact Hk. }
  splits; [exact Hscore| |].
  { intros x. split; [apply SFltb_nan_r|apply SFltb_nan_l]. }
  pose proof (prepared_steady tl d w)
    as (Gp & _ & Hdr0 & Hout0 & _ & Htries & _ & _).
  pose proof (prepared_live tl d w _ _ Hd) as Hdp.
  pose proof (prepared_copy tl d w) as Hcopy.
  assert (Hguard : try_ (start (S (length (heap w)))) = None \/
            exists m0, as_index (number_of_tries
                                   (this (prepared tl d w))) = Some m0
                       /\ 1 <= m0) by (now left).
  pose proof (iteration_spec df tl 0 (start (S (length (heap w))))
                (prepared tl d w) d d Hdp Hcopy Hguard) as R.
  destruct (iteration std df tl 0 (start (S (length (heap w))))
              (prepared tl d w)) as [w1 [e|[[] L1]]] eqn:Hiter.
  - exfalso. destruct R as [R|[R|R]]; [congruence|congruence|].
    apply R. exists m. rewrite Htries. now split.
  - exfalso.
    destruct R as (m' & cur & k & s & dn' & _ & Hcur & _ & _ & _ & _ & _
                   & _ & (r & _ & _ & _ & Hlt) & _).
    rewrite Hscore in Hcur. inversion Hcur; subst cur.
    rewrite SFltb_nan_r in Hlt. discriminate.
  - destruct R as (m' & cur & Hm' & _ & Hcur & St & Hdr & Hrb & _ & _ & _
                   & [(Hdf & Hrs & _ & Hout)
                     |(s & dn' & _ & _ & (r & _ & _ & _ & Hlt) & _)]).
    2:{ rewrite Hscore in Hcur. inversion Hcur; subst cur.
        rewrite SFltb_nan_r in Hlt. discriminate. }
    rewrite Htries, Hm in Hm'. inversion Hm'; subst m'.
    assert (Hin : 0 <= 0 < n) by lia.
    destruct (range_split 0 n Hin) as [rest Hsplit].
    cbn [range Z.to_nat seq map app] in Hsplit.
    exists (update (with_results L1) w1). splits.
    + rewrite (fit_run _ _ _ _ Hd), Hn, Hsplit. cbn [for_each].
      rewrite (bind_inr _ _ _ _ _ Hiter). cbn [fst snd ret].
      rewrite finish_run, Hrs, Hdf. reflexivity.
    + cbn [heap update]. destruct St as (G & _).
      eapply grows_live; eassumption.
    + cbn [drawn update]. now rewrite Hdr, Hdr0.
    + cbn [stdout update]. now rewrite Hout, Hout0, Htries.
    + cbn. now rewrite Hrs.
    + cbn. now rewrite Hrb.
Qed.

(** C4, as the code has it. There is no schema check. When a name of
    [target_list] is not a column and [number_of_adds] is a positive
    integer, [fit] raises the [KeyError] of the first score computation,
    in iteration 0: the instance is reset and the two copies are made, but
    nothing is drawn and nothing is printed. An empty [target_list] raises
    nothing: on every frame the score is the reduction of an empty series,
    so no candidate scores below the working frame, and on a non-empty
    frame with integer budgets of at least one [fit] goes on to sample: it
    draws its [m] rows in iteration 0, prints the line for iteration 0 and
    returns a copy of the input. *)
Theorem C4_missing_label_raises df tl w d :
  nth_error (heap w) df = Some d ->
  (missing tl (columns d) <> [] ->
   forall n, as_index (number_of_adds (this w)) = Some n -> 1 <= n ->
     fit std df tl w
       = (prepared tl d w, inl (KeyError (missing tl (columns d)))) /\
     drawn (prepared tl d w) = drawn w /\
     stdout (prepared tl d w) = stdout w) /\
  (forall x, frame_score std [] x = inr (std [])) /\
  (rows d <> [] ->
   forall n m,
     as_index (number_of_adds (this w)) = Some n -> 1 <= n ->
     as_index (number_of_tries (this w)) = Some m -> 1 <= m ->
     exists w',
       fit std df [] w = (w', inr (RetFrame (S (length (heap w))))) /\
       nth_error (heap w') (S (length (heap w))) = Some d /\
       drawn w' = (drawn w + Z.to_nat m)%nat /\
       stdout w' = stdout w ++ [NoImprovement (number_of_tries (this w)) 0] /\
       self_res_std (this w') = Some [] /\
       self_res_bad (this w') = Some []).
Proof.
  intros Hd. split; [|split; [reflexivity|]].
  - intros Hmiss n Hn Hpos. splits; try reflexivity.
    rewrite (fit_run _ _ _ _ Hd), Hn.
    assert (Hin : 0 <= 0 < n) by lia.
    destruct (range_split 0 n Hin) as [rest Hsplit].
    cbn [range Z.to_nat seq map app] in Hsplit. rewrite Hsplit.
    cbn [for_each]. unfold iteration, bind at 1 2.
    cbn [df_new start].
    rewrite (score_run _ _ _ _ (prepared_copy tl d w)).
    unfold frame_score, label_sums.
    destruct (missing tl (columns d)); [congruence|reflexivity].
  - intros Hne n m Hn Hnpos Hm Hmpos.
    assert (Hscore : forall x, frame_score std [] x = inr (std []))
      by reflexivity.
    pose proof (prepared_steady [] d w)
      as (Gp & _ & Hdr0 & Hout0 & _ & Htries & _ & _).
    pose proof (prepared_live [] d w _ _ Hd) as Hdp.
    pose proof (prepared_copy [] d w) as Hcopy.
    assert (Hguard : try_ (start (S (length (heap w)))) = None \/
              exists m0, as_index (number_of_tries
                                     (this (prepared [] d w))) = Some m0
                         /\ 1 <= m0) by (now left).
    pose proof (iteration_spec df [] 0 (start (S (length (heap w))))
                  (prepared [] d w) d d Hdp Hcopy Hguard) as R.
    destruct (iteration std df [] 0 (start (S (length (heap w))))
                (prepared [] d w)) as [w1 [e|[[] L1]]] eqn:Hiter.
    + exfalso. destruct R as [R|[R|R]]; [congruence|contradiction|].
      apply R. exists m. rewrite Htries. now split.
    + exfalso.
      destruct R as (m' & cur & k & s & dn' & _ & Hcur & _ & _ & _ & _ & _
                     & _ & (r & _ & _ & Hs & Hlt) & _).
      rewrite Hscore in Hcur, Hs. inversion Hcur; subst cur.
      inversion Hs; subst s.
      rewrite (SFltb_irrefl (std [])) in Hlt. discriminate.
    + destruct R as (m' & cur & Hm' & _ & Hcur & St & Hdr & Hrb & _ & _ & _
                     & [(Hdf & Hrs & _ & Hout)
                       |(s & dn' & _ & _ & (r & _ & _ & Hs & Hlt) & _)]).
      2:{ rewrite Hscore in Hcur, Hs. inversion Hcur; subst cur.
          inversion Hs; subst s.
          rewrite (SFltb_irrefl (std [])) in Hlt. discriminate. }
      rewrite Htries, Hm in Hm'. inversion Hm'; subst m'.
      assert (Hin : 0 <= 0 < n) by lia.
      destruct (range_split 0 n Hin) as [rest Hsplit].
      cbn [range Z.to_nat seq map app] in Hsplit.
      exists (update (with_results L1) w1). splits.
      * rewrite (fit_run _ _ _ _ Hd), Hn, Hsplit. cbn [for_each].
        rewrite (bind_inr _ _ _ _ _ Hiter). cbn [fst snd ret].
        rewrite finish_run, Hrs, Hdf. reflexivity.
      * cbn [heap update]. destruct St as (G & _).
        eapply grows_live; eassumption.
      * cbn [drawn update]. now rewrite Hdr, Hdr0.
      * cbn [stdout update]. now rewrite Hout, Hout0, Htries.
      * cbn. now rewrite Hrs.
      * cbn. now rewrite Hrb.
Qed.

(** C8, as the code has it. When [fit] returns, it returns the augmented
    frame alone if no score was accepted or [plot] is off, and otherwise
    the frame paired with the pyplot handle; the accepted scores and the
    rejected-trial lists are not returned but stored on the instance, as
    [res_std] and [res_bad], next to [df_new]. With [plot] off, [fit]
    does return on every non-empty frame that has the label columns, for
    integer budgets with at least one try. *)
Theorem C8_return_value df tl w d :
  nth_error (heap w) df = Some d ->
  (forall w' v,
     fit std df tl w = (w', inr v) ->
     exists a rs rb,
       self_df_new (this w') = Some a /\
       self_res_std (this w') = Some rs /\
       self_res_bad (this w') = Some rb /\
       ((v = RetFrame a /\ (rs = [] \/ plot (this w) = false)) \/
        (v = RetPair a plt /\ rs <> [] /\ plot (this w) = true))) /\
  (rows d <> [] -> missing tl (columns d) = [] ->
   (exists n, as_index (number_of_adds (this w)) = Some n) ->
   (exists m, as_index (number_of_tries (this w)) = Some m /\ 1 <= m) ->
   plot (this w) = false ->
   exists w' a, fit std df tl w = (w', inr (RetFrame a))).
Proof.
  intros Hd.
  pose proof (prepared_steady tl d w)
    as (_ & _ & _ & _ & _ & Htries & _ & Hplot).
  split.
  - intros w' v Hfit.
    destruct (fit_results _ _ _ _ _ _ Hd Hfit)
      as [(_ & _ & _ & e & He)|(n & f & L & wl & Hn & Hrun & Hfin)];
      [discriminate|].
    pose proof (steady_loop df tl (range n) (start (S (length (heap w))))
                  (prepared tl d w)) as St.
    rewrite Hrun in St. destruct St as (_ & _ & Hthis).
    cbn [fst] in Hthis.
    rewrite finish_run in Hfin. inversion Hfin as [[Hw Hret]]. clear Hfin.
    exists (df_new L), (res_std L), (res_bad L).
    cbn [this update with_results self_df_new self_res_std self_res_bad].
    splits; try reflexivity.
    rewrite Hthis, Hplot in Hret.
    destruct (res_std L) as [|s rs] eqn:Hrs; cbn [length Nat.ltb Nat.leb]
      in Hret.
    + cbn in Hret. inversion Hret. left. split; [reflexivity|now left].
    + change ((0 <? S (length rs))%nat) with true in Hret.
      cbn [andb] in Hret.
      destruct (plot (this w)).
      * destruct (res_bad L) as [|[|q first] rest]; try discriminate.
        inversion Hret. right. splits; [reflexivity|discriminate|reflexivity].
      * inversion Hret. left. split; [reflexivity|now right].
  - intros Hne Hmiss (n & Hn) (m & Hm & Hpos) Hoff.
    rewrite (fit_run _ _ _ _ Hd), Hn.
    pose proof (loop_spec df tl d (length (heap w)) (range n) _ _
                  (prepared_live tl d w _ _ Hd) (loop_inv_start tl d w)
                  (or_introl eq_refl)) as R.
    pose proof (steady_loop df tl (range n) (start (S (length (heap w))))
                  (prepared tl d w)) as St.
    destruct (for_each (iteration std df tl) (range n)
                (start (S (length (heap w)))) (prepared tl d w))
      as [wl [e|[f L]]].
    + exfalso. destruct R as [R|[R|R]]; [congruence|congruence|].
      apply R. exists m. rewrite Htries. now split.
    + destruct St as (_ & _ & Hthis). cbn [fst] in Hthis.
      rewrite finish_run. cbn [snd]. rewrite Hthis, Hplot, Hoff.
      rewrite andb_false_r. eauto.
Qed.

End FitFacts.

(** ** Concrete runs *)

Lemma sample_std_short v : (length v < 2)%nat -> sample_std v = S754_nan.
Proof.
  intros H. unfold sample_std.
  destruct (Z.leb_spec (Z.of_nat (length v)) 1); [reflexivity|lia].
Qed.

(** C1, on the run with one try per iteration. The candidate of iteration 0
    is accepted at try 0, which is the last try: its row is appended and its
    score recorded, and then the loop prints the no-improvement line and
    ends, after one draw, with four of the five iterations not started. With
    two tries, on the same data and draws, the run accepts twice. *)
Theorem C1_last_try_acceptance_ends_run :
  self_res_std (this (fst last_try_run))
    = Some [S754_finite false 6369051672525773 (-53)] /\
  nth_error (heap (fst last_try_run)) 4
    = Some (mkFrame (columns demo) (rows demo ++ [mkRow 3 [0; 1; 10]])) /\
  snd last_try_run = inr (RetFrame 4%nat) /\
  stdout (fst last_try_run) = [NoImprovement (PyInt 1) 0] /\
  drawn (fst last_try_run) = 1%nat /\
  self_res_std (this (fst demo_run)) = Some demo_scores.
Proof. vm_compute. repeat split. Qed.

(** C2, at [number_of_adds = 0]. The constructor does not keep the zero: it
    stores the float [1e6] in its place. The bound that [fit] then hands to
    [range] is that float, so [fit] raises [TypeError] once the instance
    is reset and the two copies are made: no iteration starts, no row is
    drawn, nothing is printed, no frame is returned and no result is
    stored. *)
Theorem C2_zero_adds_raises :
  number_of_adds (this zero_adds_world) = PyFloat sentinel /\
  SFeqb sentinel (f64_of_Z (10 ^ 6)) = true /\
  as_index (number_of_adds (this zero_adds_world)) = None /\
  fit sample_std 0%nat labels zero_adds_world
    = (prepared labels demo zero_adds_world, inl TypeError) /\
  (forall v, snd (fit sample_std 0%nat labels zero_adds_world) <> inr v) /\
  drawn (prepared labels demo zero_adds_world) = 0%nat /\
  stdout (prepared labels demo zero_adds_world) = [] /\
  self_df_new (this (prepared labels demo zero_adds_world)) = None /\
  self_res_std (this (prepared labels demo zero_adds_world)) = None /\
  self_res_bad (this (prepared labels demo zero_adds_world)) = None.
Proof.
  assert (H : fit sample_std 0%nat labels zero_adds_world
              = (prepared labels demo zero_adds_world, inl TypeError))
    by (vm_compute; reflexivity).
  splits; try reflexivity; try exact H.
  intros v. rewrite H. discriminate.
Qed.

Lemma C4_counterexample :
  snd no_labels_run = inr (RetFrame 2%nat) /\
  drawn (fst no_labels_run) = 2%nat /\
  forall e, snd no_labels_run <> inl e.
Proof.
  assert (H : snd no_labels_run = inr (RetFrame 2%nat))
    by (vm_compute; reflexivity).
  splits; [exact H|vm_compute; reflexivity|].
  intros e. rewrite H. discriminate.
Qed.

Lemma C7_counterexample :
  drawn (fst balanced_run) = 2%nat /\
  stdout (fst balanced_run) = [NoImprovement (PyInt 2) 0] /\
  self_res_bad (this (fst balanced_run)) = Some [].
Proof. vm_compute. repeat split. Qed.

Lemma C8_counterexample :
  snd balanced_run = inr (RetFrame 2%nat) /\
  forall a p, snd balanced_run <> inr (RetPair a p).
Proof.
  assert (H : snd balanced_run = inr (RetFrame 2%nat))
    by (vm_compute; reflexivity).
  split; [exact H|]. intros a p. rewrite H. discriminate.
Qed.

Lemma C3_witness :
  fst demo_run
    = update (with_results stall_T)
        (say (NoImprovement (number_of_tries (this demo_world)) 2)
           stall_ws) /\
  drawn (fst demo_run) = (drawn stall_wi + Z.to_nat 2)%nat /\
  heap (fst demo_run) = heap stall_ws /\
  length (res_std stall_T) = Z.to_nat 2 /\
  res_std stall_T = res_std stall_Li /\
  df_new stall_T = df_new stall_Li /\
  exists dn,
    nth_error (heap (fst demo_run)) (df_new stall_T) = Some dn /\
    length (rows dn) = (length (rows demo) + Z.to_nat 2)%nat.
Proof.
  apply (C3_stall_ends_run sample_std 0%nat labels demo_world demo 5 2 2
           stall_wi stall_Li (S754_zero false) stall_ws stall_T).
  - reflexivity.
  - reflexivity.
  - reflexivity.
  - lia.
  - lia.
  - vm_compute. reflexivity.
  - vm_compute. reflexivity.
  - vm_compute. reflexivity.
Defined.

Lemma C4_witness :
  (fit sample_std 0%nat unknown_label demo_world
     = (prepared unknown_label demo demo_world,
        inl (KeyError (missing unknown_label (columns demo)))) /\
   drawn (prepared unknown_label demo demo_world) = drawn demo_world /\
   stdout (prepared unknown_label demo demo_world) = stdout demo_world) /\
  exists w',
    fit sample_std 0%nat [] demo_world = (w', inr (RetFrame 2%nat)) /\
    nth_error (heap w') 2%nat = Some demo /\
    drawn w' = 2%nat /\
    stdout w' = [NoImprovement (PyInt 2) 0] /\
    self_res_std (this w') = Some [] /\
    self_res_bad (this w') = Some [].
Proof.
  split.
  - apply (proj1 (C4_missing_label_raises sample_std 0%nat unknown_label
                    demo_world demo eq_refl)) with (n := 5).
    + vm_compute. discriminate.
    + reflexivity.
    + lia.
  - apply (proj2 (proj2 (C4_missing_label_raises sample_std 0%nat
                           unknown_label demo_world demo eq_refl)))
      with (n := 5) (m := 2).
    + vm_compute. discriminate.
    + reflexivity.
    + lia.
    + reflexivity.
    + lia.
Defined.

Lemma C5_witness :
  strictly_decreasing (demo_score :: demo_scores) = true /\
  exists dn,
    nth_error (heap (fst demo_run)) 6 = Some dn /\
    frame_score sample_std labels dn = inr (last demo_scores demo_score).
Proof.
  apply (proj2 (proj2 (C5_strict_improvement sample_std 0%nat labels
                         demo_world demo eq_refl))
           (fst demo_run) (snd demo_run) 6%nat demo_scores demo_score).
  - vm_compute. reflexivity.
  - vm_compute. reflexivity.
  - vm_compute. reflexivity.
  - vm_compute. reflexivity.
Defined.

Lemma C6_witness :
  exists dn n,
    nth_error (heap (fst demo_run)) 6 = Some dn /\
    length (rows dn) = (length (rows demo) + length demo_scores)%nat /\
    as_index (number_of_adds (this demo_world)) = Some n /\
    (length demo_scores <= Z.to_nat n)%nat /\
    (forall v, snd demo_run = inr v ->
               v = RetFrame 6%nat \/ v = RetPair 6%nat plt).
Proof.
  apply (proj2 (proj2 (C6_working_set_size sample_std 0%nat labels
                         demo_world demo eq_refl))
           (fst demo_run) (snd demo_run) 6%nat demo_scores).
  - vm_compute. reflexivity.
  - vm_compute. reflexivity.
  - vm_compute. reflexivity.
Defined.

Lemma C7_witness :
  self_res_bad (this (fst demo_run)) = Some (res_bad stall_Li) /\
  length (res_bad stall_Li) = Z.to_nat 2 /\
  length (not_working stall_T) = Z.to_nat 2.
Proof.
  apply (proj2 (proj2 (C7_rejected_history sample_std 0%nat labels
                         demo_world demo eq_refl))
           5 2 2 stall_wi stall_Li (S754_zero false) stall_ws stall_T).
  - reflexivity.
  - reflexivity.
  - lia.
  - lia.
  - vm_compute. reflexivity.
  - vm_compute. reflexivity.
  - vm_compute. reflexivity.
Defined.

Lemma C8_witness :
  exists a rs rb,
    self_df_new (this (fst pair_run)) = Some a /\
    self_res_std (this (fst pair_run)) = Some rs /\
    self_res_bad (this (fst pair_run)) = Some rb /\
    ((RetPair 6%nat plt = RetFrame a /\
      (rs = [] \/ plot (this pair_world) = false)) \/
     (RetPair 6%nat plt = RetPair a plt /\ rs <> [] /\
      plot (this pair_world) = true)).
Proof.
  apply (proj1 (C8_return_value sample_std 0%nat labels pair_world demo
                  eq_refl) (fst pair_run) (RetPair 6%nat plt)).
  vm_compute. reflexivity.
Defined.

Lemma C9_witness :
  frame_score sample_std one_label demo = inr S754_nan /\
  (forall x, SFltb x S754_nan = false /\ SFltb S754_nan x = false) /\
  exists w',
    fit sample_std 0%nat one_label demo_world
      = (w', inr (RetFrame (S (length (heap demo_world))))) /\
    nth_error (heap w') (S (length (heap demo_world))) = Some demo /\
    drawn w' = (drawn demo_world + Z.to_nat 2)%nat /\
    stdout w'
      = stdout demo_world
          ++ [NoImprovement (number_of_tries (this demo_world)) 0] /\
    self_res_std (this w') = Some [] /\
    self_res_bad (this w') = Some [].
Proof.
  apply (C9_undefined_score_stalls sample_std 0%nat one_label demo_world demo
           5 2 sample_std_short).
  - cbn. lia.
  - reflexivity.
  - discriminate.
  - reflexivity.
  - reflexivity.
  - lia.
  - reflexivity.
  - lia.
Defined.

Lemma C10_witness :
  nth_error (heap (fst demo_run)) 0 = Some demo /\
  (forall a x, nth_error (heap demo_world) a = Some x ->
               nth_error (heap (fst demo_run)) a = Some x) /\
  (forall a p,
     snd demo_run = inr (RetFrame a) \/ snd demo_run = inr (RetPair a p) ->
     a <> 0%nat /\ (length (heap demo_world) <= a)%nat /\
     exists extra,
       nth_error (heap (fst demo_run)) a
         = Some (mkFrame (columns demo) (rows demo ++ extra)) /\
       Forall (fun row => In row (rows demo)) extra).
Proof.
  apply (C10_input_not_mutated sample_std 0%nat labels demo_world demo
           (fst demo_run) (snd demo_run)).
  - reflexivity.
  - vm_compute. reflexivity.
Defined.

(** * Further properties of [fit] *)

Lemma range_empty n : n <= 0 -> range n = [].
Proof.
  intros H. unfold range.
  replace (Z.to_nat n) with O by lia. reflexivity.
Qed.

Lemma range_first n : 1 <= n -> exists rest, range n = 0 :: rest.
Proof.
  intros H. assert (Hin : 0 <= 0 < n) by lia.
  destruct (range_split 0 n Hin) as [rest Hsplit]. now exists rest.
Qed.

Section Edges.

Variable std : list Z -> float.

Lemma frame_score_defined tl x s :
  frame_score std tl x = inr s ->
  missing tl (columns x) = [] /\ exists v, s = std v.
Proof.
  unfold frame_score, label_sums.
  destruct (missing tl (columns x)); [|discriminate].
  intros H. inversion H. eauto.
Qed.

Lemma frame_score_columns tl x y :
  columns x = columns y -> missing tl (columns x) = [] ->
  exists s, frame_score std tl y = inr s.
Proof.
  intros Hc Hm. unfold frame_score, label_sums.
  rewrite <- Hc, Hm. eauto.
Qed.

Lemma loop_inv_rebase tl d b b' w L :
  loop_inv std tl d b w L -> (b' <= df_new L)%nat ->
  loop_inv std tl d b' w L.
Proof. intros (_ & H) Hb. split; assumption. Qed.

(** The first score computation of iteration 0, on the second copy. *)
Lemma first_score tl d w :
  score std (S (length (heap w))) tl (prepared tl d w)
  = (prepared tl d w,
     match frame_score std tl d with
     | inl e => inl e
     | inr s => inr s
     end).
Proof. apply score_run, prepared_copy. Qed.

(** A negative [number_of_adds] asks for no iteration: [fit] returns the
    second copy of its input at once, stores empty traces, draws nothing
    and prints nothing, and it does not look at [target_list], so a name
    that is not a column goes unnoticed. *)
Theorem fit_without_iterations df tl w d n :
  nth_error (heap w) df = Some d ->
  as_index (number_of_adds (this w)) = Some n -> n <= 0 ->
  exists w',
    fit std df tl w = (w', inr (RetFrame (S (length (heap w))))) /\
    nth_error (heap w') (S (length (heap w))) = Some d /\
    length (heap w') = (length (heap w) + 2)%nat /\
    drawn w' = drawn w /\ stdout w' = stdout w /\
    self_res_std (this w') = Some [] /\ self_res_bad (this w') = Some [].
Proof.
  intros Hd Hn Hle.
  exists (update (with_results (start (S (length (heap w)))))
            (prepared tl d w)).
  splits; try reflexivity.
  - rewrite (fit_run _ _ _ _ _ Hd), Hn, (range_empty _ Hle).
    cbn [for_each ret snd]. now rewrite finish_run.
  - apply prepared_copy.
  - cbn. rewrite !length_app. cbn. lia.
Qed.

(** A negative [number_of_tries] makes the try loop empty, so the test
    after it reads [try_] before any assignment: with at least one
    iteration to run and the label columns present, [fit] raises
    [UnboundLocalError] in iteration 0, having drawn nothing, and it does
    so on an empty frame too. *)
Theorem fit_without_tries df tl w d n m :
  nth_error (heap w) df = Some d ->
  as_index (number_of_adds (this w)) = Some n -> 1 <= n ->
  as_index (number_of_tries (this w)) = Some m -> m <= 0 ->
  missing tl (columns d) = [] ->
  fit std df tl w = (prepared tl d w, inl UnboundLocalError) /\
  drawn (prepared tl d w) = drawn w /\
  self_res_std (this (prepared tl d w)) = None.
Proof.
  intros Hd Hn Hpos Hm Hle Hmiss. splits; try reflexivity.
  rewrite (fit_run _ _ _ _ _ Hd), Hn.
  destruct (range_first n Hpos) as [rest ->].
  cbn [for_each]. unfold iteration, bind at 1 2.
  cbn [df_new start]. rewrite first_score.
  destruct (frame_score_columns tl d d eq_refl Hmiss) as [s ->].
  unfold bind at 1, get_self.
  change (number_of_tries (this (prepared tl d w)))
    with (number_of_tries (this w)).
  rewrite Hm, (range_empty _ Hle). reflexivity.
Qed.

(** A budget that [range] does not accept. When [number_of_adds] is not an
    integer, [fit] raises [TypeError] after its two copies; when
    [number_of_tries] is not one, it does so in iteration 0 after the first
    score, provided an iteration runs and the label columns are present.
    Nothing is drawn. The constructor produces exactly such a budget from a
    falsy argument. *)
Theorem fit_rejects_float_budget df tl w d :
  nth_error (heap w) df = Some d ->
  (as_index (number_of_adds (this w)) = None \/
   (exists n, as_index (number_of_adds (this w)) = Some n /\ 1 <= n) /\
   missing tl (columns d) = [] /\
   as_index (number_of_tries (this w)) = None) ->
  fit std df tl w = (prepared tl d w, inl TypeError) /\
  drawn (prepared tl d w) = drawn w /\
  (forall adds tries q dt pl,
     (truthy adds = false ->
      as_index (number_of_adds (init adds tries q dt pl)) = None) /\
     (truthy tries = false ->
      as_index (number_of_tries (init adds tries q dt pl)) = None)).
Proof.
  intros Hd Hcase. splits; try reflexivity.
  - rewrite (fit_run _ _ _ _ _ Hd).
    destruct Hcase as [->|((n & Hn & Hpos) & Hmiss & Hm)]; [reflexivity|].
    rewrite Hn. destruct (range_first n Hpos) as [rest ->].
    cbn [for_each]. unfold iteration, bind at 1 2.
    cbn [df_new start]. rewrite first_score.
    destruct (frame_score_columns tl d d eq_refl Hmiss) as [s ->].
    unfold bind at 1, get_self.
    change (number_of_tries (this (prepared tl d w)))
      with (number_of_tries (this w)).
    rewrite Hm. reflexivity.
  - intros adds tries q dt pl. split; intros H; cbn; now rewrite H.
Qed.

(** On a frame without rows, with integer budgets of at least one and the
    label columns present, [fit] raises the [ValueError] of the first
    [sample], before anything is drawn. *)
Theorem fit_on_empty_frame df tl w d n m :
  nth_error (heap w) df = Some d -> rows d = [] ->
  as_index (number_of_adds (this w)) = Some n -> 1 <= n ->
  as_index (number_of_tries (this w)) = Some m -> 1 <= m ->
  missing tl (columns d) = [] ->
  fit std df tl w = (prepared tl d w, inl ValueError) /\
  drawn (prepared tl d w) = drawn w.
Proof.
  intros Hd Hrows Hn Hnpos Hm Hmpos Hmiss. split; [|reflexivity].
  rewrite (fit_run _ _ _ _ _ Hd), Hn.
  destruct (range_first n Hnpos) as [rest ->].
  cbn [for_each]. unfold iteration, bind at 1 2.
  cbn [df_new start]. rewrite first_score.
  destruct (frame_score_columns tl d d eq_refl Hmiss) as [s ->].
  unfold bind at 1, get_self.
  change (number_of_tries (this (prepared tl d w)))
    with (number_of_tries (this w)).
  rewrite Hm. destruct (range_first m Hmpos) as [rest' ->].
  cbn [for_each]. unfold trial, bind at 1 2.
  now rewrite (bind_inl _ _ _ _ _
                 (sample_empty _ _ _ (prepared_live tl d w _ _ Hd) Hrows)).
Qed.

(** [fit] starts by resetting the instance, so what an earlier call left in
    the five attributes has no effect: two worlds that agree once reset
    give the same run. *)
Theorem fit_forgets_earlier_results df tl w1 w2 :
  update clear w1 = update clear w2 ->
  fit std df tl w1 = fit std df tl w2.
Proof.
  intros H. unfold fit, reset.
  unfold bind at 1, set_self at 1.
  symmetry. unfold bind at 1, set_self at 1.
  now rewrite H.
Qed.

(** Whatever [fit] does, returning or raising, it leaves [target_list] set
    to its argument and [df] set to a new object that holds a copy of the
    input; the budgets and flags are as before; the three result
    attributes are either all unset, and then [fit] raised, or all set,
    [df_new] to yet another object. *)
Theorem fit_attributes df tl w d w' r :
  nth_error (heap w) df = Some d ->
  fit std df tl w = (w', r) ->
  self_target_list (this w') = Some tl /\
  self_df (this w') = Some (length (heap w)) /\
  nth_error (heap w') (length (heap w)) = Some d /\
  number_of_adds (this w') = number_of_adds (this w) /\
  number_of_tries (this w') = number_of_tries (this w) /\
  details (this w') = details (this w) /\
  plot (this w') = plot (this w) /\
  ((self_df_new (this w') = None /\ self_res_std (this w') = None /\
    self_res_bad (this w') = None /\ exists e, r = inl e) \/
   (exists a rs rb,
      self_df_new (this w') = Some a /\ self_res_std (this w') = Some rs /\
      self_res_bad (this w') = Some rb /\
      a <> df /\ a <> length (heap w))).
Proof.
  intros Hd Hfit.
  assert (Hcopy : nth_error (heap (prepared tl d w)) (length (heap w))
                  = Some d).
  { unfold prepared, push, update. cbn [heap].
    apply nth_error_live, nth_error_fresh. }
  assert (Hshape : (this w' = this (prepared tl d w) /\
                    grows (prepared tl d w) w' /\ exists e, r = inl e) \/
                   (exists L wl, this wl = this (prepared tl d w) /\
                      grows (prepared tl d w) wl /\
                      w' = update (with_results L) wl /\
                      loop_inv std tl d (S (length (heap w))) wl L)).
  { rewrite (fit_run _ _ _ _ _ Hd) in Hfit.
    destruct (as_index (number_of_adds (this w))) as [n|].
    - pose proof (steady_loop std df tl (range n)
                    (start (S (length (heap w)))) (prepared tl d w)) as St.
      pose proof (loop_spec std df tl d (S (length (heap w))) (range n) _ _
                    (prepared_live tl d w _ _ Hd)
                    (loop_inv_rebase _ _ _ _ _ _ (loop_inv_start std tl d w)
                       (le_n _))
                    (or_introl eq_refl)) as R.
      destruct (for_each (iteration std df tl) (range n)
                  (start (S (length (heap w)))) (prepared tl d w))
        as [wl [e|[f L]]].
      + left. inversion Hfit; subst. destruct St as (G & _ & Hthis).
        splits; eauto.
      + right. destruct St as (G & _ & Hthis). destruct R as (_ & Hinv & _).
        rewrite finish_run in Hfit. inversion Hfit; subst.
        exists L, wl. splits; auto.
    - left. inversion Hfit; subst. splits; eauto. apply grows_refl. }
  destruct Hshape as [(Hthis & G & He)
                     |(L & wl & Hthis & G & -> & Hb & _)].
  - rewrite Hthis. splits; try reflexivity.
    + eapply grows_live; eassumption.
    + left. splits; try reflexivity. exact He.
  - cbn [this update heap]. rewrite Hthis. splits; try reflexivity.
    + eapply grows_live; eassumption.
    + right. exists (df_new L), (res_std L), (res_bad L).
      splits; try reflexivity.
      * assert (df < length (heap w))%nat
          by (apply nth_error_Some; congruence).
        cbn in Hb. lia.
      * cbn in Hb. lia.
Qed.

End Edges.

Section Traces.

Variable std : list Z -> float.

(** The iteration loop again, for a try budget [m] of at least one, with
    what it does to the traces and to the random source. *)
Lemma loop_trace df tl d base m xs L w :
  nth_error (heap w) df = Some d ->
  loop_inv std tl d base w L ->
  as_index (number_of_tries (this w)) = Some m -> 1 <= m ->
  match for_each (iteration std df tl) xs L w with
  | (w', inr (f, L')) =>
      steady w w' /\ loop_inv std tl d base w' L' /\
      exists bad good,
        res_bad L' = res_bad L ++ bad /\ res_std L' = res_std L ++ good /\
        Forall (fun rej => Z.of_nat (length rej) + 1 < m) bad /\
        (length bad <= length good <= length bad + 1)%nat /\
        (drawn w + length good <= drawn w')%nat /\
        (drawn w' <= drawn w + length xs * Z.to_nat m)%nat
  | (w', inl e) => rows d = [] \/ missing tl (columns d) <> []
  end.
Proof.
  intros Hd Hinv Hm Hpos.
  pose (I := fun (k : nat) (L' : locals) (w' : world) =>
    steady w w' /\ loop_inv std tl d base w' L' /\
    exists bad good,
      res_bad L' = res_bad L ++ bad /\ res_std L' = res_std L ++ good /\
      Forall (fun rej => Z.of_nat (length rej) + 1 < m) bad /\
      length bad = k /\ length good = k /\
      (drawn w + length good <= drawn w')%nat /\
      (drawn w' <= drawn w + k * Z.to_nat m)%nat).
  pose (B := fun (k : nat) (L' : locals) (w' : world) =>
    steady w w' /\ loop_inv std tl d base w' L' /\
    exists bad good,
      res_bad L' = res_bad L ++ bad /\ res_std L' = res_std L ++ good /\
      Forall (fun rej => Z.of_nat (length rej) + 1 < m) bad /\
      length bad = k /\ (length good = k \/ length good = S k) /\
      (drawn w + length good <= drawn w')%nat /\
      (drawn w' <= drawn w + S k * Z.to_nat m)%nat).
  pose (E := fun (_ : exn) (_ : world) =>
    rows d = [] \/ missing tl (columns d) <> []).
  assert (Hstep : forall k x L1 w1, nth_error xs k = Some x ->
            I k L1 w1 ->
            match iteration std df tl x L1 w1 with
            | (w', inr (Next, L')) => I (S k) L' w'
            | (w', inr (Break, L')) => B k L' w'
            | (w', inl e) => E e w'
            end).
  { intros k x L1 w1 _ (St & Hinv1 & bad & good & Hrb1 & Hrs1 & Hall
                        & Hlb & Hlg & Hlo & Hhi).
    unfold I, B, E.
    pose proof St as (G & Hent & Hthis).
    pose proof (grows_live _ _ _ _ G Hd) as Hd1.
    pose proof Hinv1 as (Hb & extra & Hlive & Hin & Hlen & Hsc).
    assert (Hg1 : try_ L1 = None \/
              exists m0, as_index (number_of_tries (this w1)) = Some m0
                         /\ 1 <= m0)
      by (right; exists m; rewrite Hthis; now split).
    pose proof (iteration_spec std df tl x L1 w1 d _ Hd1 Hlive Hg1) as R.
    destruct (iteration std df tl x L1 w1) as [w' [e|[[] L']]].
    - destruct R as [R|[R|R]]; [now left|right; exact R|].
      exfalso. apply R. exists m. rewrite Hthis. now split.
    - destruct R as (m' & cur & j & s & dn' & Hm' & Hcur & Hj & St' & _ & Hdr
                     & Hfresh & Hlive' & Hacc & Hrs & Hrb & Hnw & _ & _).
      rewrite Hthis, Hm in Hm'. inversion Hm'; subst m'.
      splits.
      + eapply steady_trans; eassumption.
      + eapply loop_inv_accept; eassumption.
      + exists (bad ++ [not_working L']), (good ++ [s]). splits.
        * now rewrite Hrb, Hrb1, <- app_assoc.
        * now rewrite Hrs, Hrs1, <- app_assoc.
        * apply Forall_app. split; [exact Hall|].
          constructor; [|constructor]. rewrite Hnw. exact Hj.
        * rewrite length_app. cbn. lia.
        * rewrite length_app. cbn. lia.
        * rewrite length_app. cbn. lia.
        * cbn [Nat.mul]. lia.
    - destruct R as (m' & cur & Hm' & _ & Hcur & St' & Hdr & Hrb & _ & _ & _
                     & [(Hdf & Hrs & _)|(s & dn' & Hfresh & Hlive' & Hacc
                                         & Hrs & _)]).
      + rewrite Hthis, Hm in Hm'. inversion Hm'; subst m'. splits.
        * eapply steady_trans; eassumption.
        * eapply loop_inv_stable; try eassumption. apply St'.
        * exists bad, good. splits; try assumption.
          -- now rewrite Hrb.
          -- now rewrite Hrs.
          -- now left.
          -- lia.
          -- cbn [Nat.mul]. lia.
      + rewrite Hthis, Hm in Hm'. inversion Hm'; subst m'. splits.
        * eapply steady_trans; eassumption.
        * eapply loop_inv_accept; eassumption.
        * exists bad, (good ++ [s]). splits; try assumption.
          -- now rewrite Hrb.
          -- now rewrite Hrs, Hrs1, <- app_assoc.
          -- right. rewrite length_app. cbn. lia.
          -- rewrite length_app. cbn. lia.
          -- cbn [Nat.mul]. lia. }
  assert (H0 : I O L w).
  { unfold I. splits; try assumption; [apply steady_refl|].
    exists [], []. rewrite !app_nil_r. splits; auto; cbn; lia. }
  pose proof (for_each_rule _ xs I B E Hstep L w H0) as R.
  destruct (for_each (iteration std df tl) xs L w) as [w' [e|[[] L']]].
  - exact R.
  - destruct R as (St & Hinv' & bad & good & Hrb & Hrs & Hall & Hlb & Hlg
                   & Hlo & Hhi).
    splits; try assumption. exists bad, good. splits; try assumption; lia.
  - destruct R as (k & Hk & St & Hinv' & bad & good & Hrb & Hrs & Hall & Hlb
                   & Hlg & Hlo & Hhi).
    splits; try assumption. exists bad, good. splits; try assumption.
    + lia.
    + lia.
    + nia.
Qed.

(** The cost of a run. When [fit] stores its results, for integer budgets
    [n] and [m >= 1], it has drawn at least one row per accepted score and
    at most [n * m] rows. *)
Theorem fit_draw_bound df tl w d n m w' r rs :
  nth_error (heap w) df = Some d ->
  as_index (number_of_adds (this w)) = Some n ->
  as_index (number_of_tries (this w)) = Some m -> 1 <= m ->
  fit std df tl w = (w', r) ->
  self_res_std (this w') = Some rs ->
  (drawn w + length rs <= drawn w')%nat /\
  (drawn w' <= drawn w + Z.to_nat n * Z.to_nat m)%nat.
Proof.
  intros Hd Hn Hm Hpos Hfit Hrs.
  destruct (fit_results std _ _ _ _ _ _ Hd Hfit)
    as [(_ & Hnone & _)|(n' & f & L & wl & Hn' & Hrun & Hfin)];
    [congruence|].
  rewrite Hn in Hn'. inversion Hn'; subst n'.
  rewrite finish_run in Hfin. inversion Hfin; subst w' r. clear Hfin.
  cbn [this update with_results self_res_std] in Hrs.
  inversion Hrs; subst rs. cbn [drawn update].
  pose proof (loop_trace df tl d (length (heap w)) m (range n) _ _
                (prepared_live tl d w _ _ Hd) (loop_inv_start std tl d w)
                Hm Hpos) as R.
  rewrite Hrun in R.
  destruct R as (_ & _ & bad & good & _ & Hgood & _ & _ & Hlo & Hhi).
  cbn [res_std start app] in Hgood. rewrite Hgood.
  rewrite range_length in Hhi.
  change (drawn (prepared tl d w)) with (drawn w) in Hlo, Hhi.
  split; assumption.
Qed.

(** The shape of the stored traces, for integer budgets with [m >= 1]:
    [res_bad] is as long as [res_std] or one shorter, and each of its
    entries has fewer than [m - 1] pairs, since the iteration it comes from
    accepted before its last try. *)
Theorem fit_trace_shape df tl w d m w' r rs rb :
  nth_error (heap w) df = Some d ->
  as_index (number_of_tries (this w)) = Some m -> 1 <= m ->
  fit std df tl w = (w', r) ->
  self_res_std (this w') = Some rs ->
  self_res_bad (this w') = Some rb ->
  (length rb <= length rs <= length rb + 1)%nat /\
  Forall (fun rej => Z.of_nat (length rej) + 1 < m) rb.
Proof.
  intros Hd Hm Hpos Hfit Hrs Hrb.
  destruct (fit_results std _ _ _ _ _ _ Hd Hfit)
    as [(_ & Hnone & _)|(n & f & L & wl & Hn & Hrun & Hfin)];
    [congruence|].
  rewrite finish_run in Hfin. inversion Hfin; subst w' r. clear Hfin.
  cbn [this update with_results self_res_std self_res_bad] in Hrs, Hrb.
  inversion Hrs; subst rs. inversion Hrb; subst rb.
  pose proof (loop_trace df tl d (length (heap w)) m (range n) _ _
                (prepared_live tl d w _ _ Hd) (loop_inv_start std tl d w)
                Hm Hpos) as R.
  rewrite Hrun in R.
  destruct R as (_ & _ & bad & good & Hbad & Hgood & Hall & Hlen & _).
  cbn [res_std res_bad start app] in Hbad, Hgood. rewrite Hbad, Hgood.
  split; assumption.
Qed.

Lemma first_rejected tl d dn w cur rej s1 :
  rejects std tl d dn w cur rej -> rej <> [] ->
  frame_score std tl
    (mkFrame (columns dn) (rows dn ++ [pick d (entropy w (drawn w))]))
  = inr s1 ->
  SFltb s1 cur = false.
Proof.
  intros Hrej Hne Hs. destruct rej as [|p rest]; [congruence|].
  destruct (Hrej O p eq_refl) as (_ & Hp & Hlt).
  rewrite Nat.add_0_r, Hs in Hp. inversion Hp; subst. exact Hlt.
Qed.

(** With [plot] on, an acceptance at the very first draw makes [fit] raise.
    For [number_of_tries >= 2], a non-empty frame with the label columns
    and at least one iteration: iteration 0 records an empty rejected list,
    the run goes on, the results are stored, and then [plot_all_tries]
    takes the maximum of that empty list: [fit] ends in [ValueError]. *)
Theorem fit_plot_fails_after_first_draw df tl w d n m s0 s1 :
  nth_error (heap w) df = Some d -> rows d <> [] ->
  as_index (number_of_adds (this w)) = Some n -> 1 <= n ->
  as_index (number_of_tries (this w)) = Some m -> 2 <= m ->
  plot (this w) = true ->
  frame_score std tl d = inr s0 ->
  frame_score std tl
    (mkFrame (columns d) (rows d ++ [pick d (entropy w (drawn w))]))
  = inr s1 ->
  SFltb s1 s0 = true ->
  exists w' s rs rb,
    fit std df tl w = (w', inl ValueError) /\
    self_res_std (this w') = Some (s :: rs) /\
    self_res_bad (this w') = Some ([] :: rb).
Proof.
  intros Hd Hne Hn Hnpos Hm Hmpos Hplot Hs0 Hs1 Hlt.
  destruct (frame_score_defined std _ _ _ Hs0) as [Hmiss _].
  pose proof (prepared_steady tl d w)
    as (Gp & _ & _ & _ & _ & Htries & _ & Hplot').
  pose proof (prepared_live tl d w _ _ Hd) as Hdp.
  pose proof (prepared_copy tl d w) as Hcopy.
  assert (Hguard : try_ (start (S (length (heap w)))) = None \/
            exists m0, as_index (number_of_tries
                                   (this (prepared tl d w))) = Some m0
                       /\ 1 <= m0) by (now left).
  pose proof (iteration_spec std df tl 0 (start (S (length (heap w))))
                (prepared tl d w) d d Hdp Hcopy Hguard) as R.
  assert (Hfirst : forall cur rej,
            frame_score std tl d = inr cur ->
            rejects std tl d d (prepared tl d w) cur rej -> rej = []).
  { intros cur rej Hcur Hrej. destruct rej as [|p rest]; [reflexivity|].
    rewrite Hs0 in Hcur. inversion Hcur; subst cur.
    assert (Hf : SFltb s1 s0 = false)
      by (eapply first_rejected; [exact Hrej|discriminate|exact Hs1]).
    congruence. }
  destruct (iteration std df tl 0 (start (S (length (heap w))))
              (prepared tl d w)) as [w1 [e|[[] L1]]] eqn:Hiter.
  - exfalso. destruct R as [R|[R|R]]; [congruence|congruence|].
    apply R. exists m. rewrite Htries. split; [exact Hm|lia].
  - destruct R as (m' & cur & k & s & dn' & Hm' & Hcur & Hk & St & _ & _
                   & Hfresh & Hlive & Hacc & Hrs & Hrb & Hnw & Hrej & _).
    rewrite (Hfirst _ _ Hcur Hrej) in Hrb.
    cbn [res_std res_bad start app] in Hrs, Hrb.
    pose proof St as (G & _ & Hthis).
    assert (Hinv1 : loop_inv std tl d (length (heap w)) w1 L1)
      by (eapply loop_inv_accept;
          [apply loop_inv_start|exact Hcopy|exact Hcur|exact Hacc
          |exact Hfresh|exact Hlive|exact Hrs]).
    assert (Hm1 : as_index (number_of_tries (this w1)) = Some m)
      by (now rewrite Hthis, Htries).
    destruct (range_first n Hnpos) as [rest Hrange].
    pose proof (loop_trace df tl d (length (heap w)) m rest L1 w1
                  (grows_live _ _ _ _ G Hdp) Hinv1 Hm1 ltac:(lia)) as T.
    destruct (for_each (iteration std df tl) rest L1 w1)
      as [w2 [e|[f L2]]] eqn:Hrest.
    + exfalso. destruct T; congruence.
    + destruct T as ((_ & _ & Hthis2) & _ & bad & good & Hbad & Hgood & _).
      rewrite Hrb in Hbad. rewrite Hrs in Hgood.
      exists (update (with_results L2) w2), s, good, bad. splits.
      * rewrite (fit_run std _ _ _ _ Hd), Hn, Hrange. cbn [for_each].
        rewrite (bind_inr _ _ _ _ _ Hiter). cbn [fst snd]. rewrite Hrest.
        cbn [snd]. rewrite finish_run, Hbad, Hgood.
        rewrite Hthis2, Hthis, Hplot', Hplot. reflexivity.
      * cbn. now rewrite Hgood.
      * cbn. now rewrite Hbad.
  - exfalso.
    destruct R as (m' & cur & Hm' & _ & Hcur & _ & _ & _ & _ & Hrej & _
                   & [(_ & _ & Hlen & _)|(s & dn' & _ & _ & _ & _ & Hlen)]).
    + rewrite (Hfirst _ _ Hcur Hrej) in Hlen.
      rewrite Htries, Hm in Hm'. inversion Hm'; subst m'. cbn in Hlen. lia.
    + rewrite (Hfirst _ _ Hcur Hrej) in Hlen.
      rewrite Htries, Hm in Hm'. inversion Hm'; subst m'. cbn in Hlen. lia.
Qed.

(** With [plot] on, an acceptance on the last try of iteration 0 makes
    [fit] raise [IndexError]: the loop ends there with one accepted score
    and no recorded list, the results are stored, and [plot_all_tries]
    reads [res_bad[0]]. *)
Theorem fit_plot_fails_after_last_try df tl w d n m cur ws T :
  nth_error (heap w) df = Some d ->
  as_index (number_of_adds (this w)) = Some n -> 1 <= n ->
  as_index (number_of_tries (this w)) = Some m ->
  plot (this w) = true ->
  frame_score std tl d = inr cur ->
  for_each (trial std df tl 0 cur) (range m)
    (start (S (length (heap w)))) (prepared tl d w)
    = (ws, inr (Break, T)) ->
  try_ T = Some (m - 1) ->
  fit std df tl w
    = (update (with_results T)
         (say (NoImprovement (number_of_tries (this w)) 0) ws),
       inl IndexError) /\
  (exists s, res_std T = [s] /\ SFltb s cur = true) /\ res_bad T = [].
Proof.
  intros Hd Hn Hnpos Hm Hplot Hcur Htry Hlast.
  pose proof (prepared_steady tl d w)
    as (Gp & _ & _ & _ & _ & Htries & _ & Hplot').
  pose proof (prepared_live tl d w _ _ Hd) as Hdp.
  pose proof (prepared_copy tl d w) as Hcopy.
  pose proof (try_loop_spec std df tl 0 cur m (start (S (length (heap w))))
                (prepared tl d w) d d Hdp Hcopy eq_refl) as R.
  rewrite Htry in R.
  destruct R as (k & s & dn' & _ & (_ & _ & Hthis) & _ & _ & _ & _
                 & (r & _ & _ & _ & Hlt) & Hrs & Hrb & _).
  cbn [res_std res_bad start app] in Hrs, Hrb.
  splits; [|eauto|exact Hrb].
  rewrite (fit_run std _ _ _ _ Hd), Hn.
  destruct (range_first n Hnpos) as [rest ->].
  cbn [for_each]. unfold iteration at 1, bind at 1 2.
  cbn [df_new start]. rewrite first_score, Hcur.
  unfold bind at 1, get_self.
  change (number_of_tries (this (prepared tl d w)))
    with (number_of_tries (this w)).
  rewrite Hm. unfold bind at 1.
  change (mkLocals (S (length (heap w)))
            (res_std (start (S (length (heap w)))))
            (res_bad (start (S (length (heap w))))) []
            (try_ (start (S (length (heap w))))))
    with (start (S (length (heap w)))).
  rewrite Htry. cbn [snd]. rewrite Hlast.
  replace (m - 1 + 1 =? m) with true by (symmetry; apply Z.eqb_eq; lia).
  unfold bind at 1, print, ret. cbn [fst snd].
  rewrite finish_run, Hrs, Hrb. cbn [this say length Nat.ltb Nat.leb andb].
  now rewrite Hthis, Hplot', Hplot.
Qed.

Lemma SFltb_zero_r x s : SFltb x (S754_zero s) = SFltb x (S754_zero false).
Proof. destruct x as [| | |[] ? ?]; destruct s; reflexivity. Qed.

(** A frame that is already balanced. If its score is zero and the
    reduction is never below zero, then on a non-empty frame, with integer
    budgets of at least one, all [m] tries of iteration 0 are rejected:
    [fit] prints the no-improvement line for iteration 0 and returns a copy
    of the input, with empty traces. *)
Theorem fit_on_balanced_frame df tl w d n m sg :
  (forall v, SFltb (std v) (S754_zero false) = false) ->
  nth_error (heap w) df = Some d -> rows d <> [] ->
  frame_score std tl d = inr (S754_zero sg) ->
  as_index (number_of_adds (this w)) = Some n -> 1 <= n ->
  as_index (number_of_tries (this w)) = Some m -> 1 <= m ->
  exists w',
    fit std df tl w = (w', inr (RetFrame (S (length (heap w))))) /\
    nth_error (heap w') (S (length (heap w))) = Some d /\
    drawn w' = (drawn w + Z.to_nat m)%nat /\
    stdout w' = stdout w ++ [NoImprovement (number_of_tries (this w)) 0] /\
    self_res_std (this w') = Some [] /\
    self_res_bad (this w') = Some [].
Proof.
  intros Hnonneg Hd Hne Hscore Hn Hnpos Hm Hmpos.
  destruct (frame_score_defined std _ _ _ Hscore) as [Hmiss _].
  assert (Hnever : forall cur s dn', frame_score std tl d = inr cur ->
            accepts std tl d d cur s dn' -> False).
  { intros cur s dn' Hcur (r & _ & _ & Hs & Hlt).
    rewrite Hscore in Hcur. inversion Hcur; subst cur.
    destruct (frame_score_defined std _ _ _ Hs) as [_ [v ->]].
    rewrite SFltb_zero_r, Hnonneg in Hlt. discriminate. }
  pose proof (prepared_steady tl d w)
    as (Gp & _ & Hdr0 & Hout0 & _ & Htries & _ & _).
  pose proof (prepared_live tl d w _ _ Hd) as Hdp.
  pose proof (prepared_copy tl d w) as Hcopy.
  assert (Hguard : try_ (start (S (length (heap w)))) = None \/
            exists m0, as_index (number_of_tries
                                   (this (prepared tl d w))) = Some m0
                       /\ 1 <= m0) by (now left).
  pose proof (iteration_spec std df tl 0 (start (S (length (heap w))))
                (prepared tl d w) d d Hdp Hcopy Hguard) as R.
  destruct (iteration std df tl 0 (start (S (length (heap w))))
              (prepared tl d w)) as [w1 [e|[[] L1]]] eqn:Hiter.
  - exfalso. destruct R as [R|[R|R]]; [congruence|congruence|].
    apply R. exists m. rewrite Htries. now split.
  - exfalso.
    destruct R as (m' & cur & k & s & dn' & _ & Hcur & _ & _ & _ & _ & _
                   & _ & Hacc & _).
    eapply Hnever; eassumption.
  - destruct R as (m' & cur & Hm' & _ & Hcur & St & Hdr & Hrb & _ & _ & _
                   & [(Hdf & Hrs & _ & Hout)
                     |(s & dn' & _ & _ & Hacc & _)]).
    2:{ exfalso. eapply Hnever; eassumption. }
    rewrite Htries, Hm in Hm'. inversion Hm'; subst m'.
    destruct (range_first n Hnpos) as [rest Hsplit].
    exists (update (with_results L1) w1). splits.
    + rewrite (fit_run std _ _ _ _ Hd), Hn, Hsplit. cbn [for_each].
      rewrite (bind_inr _ _ _ _ _ Hiter). cbn [fst snd ret].
      rewrite finish_run, Hrs, Hdf. reflexivity.
    + cbn [heap update]. destruct St as (G & _).
      eapply grows_live; eassumption.
    + cbn [drawn update]. now rewrite Hdr, Hdr0.
    + cbn [stdout update]. now rewrite Hout, Hout0, Htries.
    + cbn. now rewrite Hrs.
    + cbn. now rewrite Hrb.
Qed.

End Traces.

(** * Reporting and test data *)

Lemma fold_min_init l a : fold_left Z.min l a <= a.
Proof.
  revert a. induction l as [|b l IH]; intros a; cbn; [lia|].
  specialize (IH (Z.min a b)). lia.
Qed.

Lemma fold_max_init l a : a <= fold_left Z.max l a.
Proof.
  revert a. induction l as [|b l IH]; intros a; cbn; [lia|].
  specialize (IH (Z.max a b)). lia.
Qed.

Lemma fold_min_le l a x : In x (a :: l) -> fold_left Z.min l a <= x.
Proof.
  revert a. induction l as [|b l IH]; intros a [->|H].
  - cbn. lia.
  - destruct H.
  - apply fold_min_init.
  - cbn. destruct H as [->|H].
    + pose proof (fold_min_init l (Z.min a x)). lia.
    + apply IH. now right.
Qed.

Lemma fold_max_ge l a x : In x (a :: l) -> x <= fold_left Z.max l a.
Proof.
  revert a. induction l as [|b l IH]; intros a [->|H].
  - cbn. lia.
  - destruct H.
  - apply fold_max_init.
  - cbn. destruct H as [->|H].
    + pose proof (fold_max_init l (Z.max a x)). lia.
    + apply IH. now right.
Qed.

Lemma fold_min_absorb l m : (forall x, In x l -> m <= x) ->
  fold_left Z.min l m = m.
Proof.
  induction l as [|b l IH]; intros H; [reflexivity|]. cbn.
  replace (Z.min m b) with m by (specialize (H b (or_introl eq_refl)); lia).
  apply IH. intros x Hx. apply H. now right.
Qed.

Lemma fold_max_absorb l m : (forall x, In x l -> x <= m) ->
  fold_left Z.max l m = m.
Proof.
  induction l as [|b l IH]; intros H; [reflexivity|]. cbn.
  replace (Z.max m b) with m by (specialize (H b (or_introl eq_refl)); lia).
  apply IH. intros x Hx. apply H. now right.
Qed.

(** Repeating elements of a list changes neither its least nor its
    greatest element, nor how many distinct elements it has. *)
Lemma minimum_app l more : l <> [] -> incl more l ->
  minimum (l ++ more) = minimum l.
Proof.
  intros Hne Hin. destruct l as [|a l]; [congruence|].
  cbn [app minimum]. rewrite fold_left_app. f_equal.
  apply fold_min_absorb. intros y Hy. apply fold_min_le, Hin, Hy.
Qed.

Lemma maximum_app l more : l <> [] -> incl more l ->
  maximum (l ++ more) = maximum l.
Proof.
  intros Hne Hin. destruct l as [|a l]; [congruence|].
  cbn [app maximum]. rewrite fold_left_app. f_equal.
  apply fold_max_absorb. intros y Hy. apply fold_max_ge, Hin, Hy.
Qed.

Lemma distinct_app (l more : list Z) : incl more l ->
  length (nodup Z.eq_dec (l ++ more)) = length (nodup Z.eq_dec l).
Proof.
  intros Hin. apply Nat.le_antisymm.
  - apply NoDup_incl_length; [apply NoDup_nodup|].
    intros y Hy. apply nodup_In. apply nodup_In in Hy.
    apply in_app_or in Hy. destruct Hy as [Hy|Hy]; [exact Hy|now apply Hin].
  - apply NoDup_incl_length; [apply NoDup_nodup|].
    intros y Hy. apply nodup_In. apply nodup_In in Hy.
    apply in_or_app. now left.
Qed.

Lemma minimum_defined l : l <> [] -> exists lo, minimum l = Some lo.
Proof. destruct l; [congruence|]. cbn. eauto. Qed.

Lemma maximum_defined l : l <> [] -> exists hi, maximum l = Some hi.
Proof. destruct l; [congruence|]. cbn. eauto. Qed.

Section Reports.

Variable std : list Z -> float.

(** What a run of [fit] that stored its results leaves behind. *)
Lemma fit_stored df tl w d w' r rs :
  nth_error (heap w) df = Some d ->
  fit std df tl w = (w', r) ->
  self_res_std (this w') = Some rs ->
  exists L wl,
    w' = update (with_results L) wl /\ rs = res_std L /\
    this wl = this (prepared tl d w) /\ grows (prepared tl d w) wl /\
    loop_inv std tl d (S (length (heap w))) wl L.
Proof.
  intros Hd Hfit Hrs.
  destruct (fit_results std _ _ _ _ _ _ Hd Hfit)
    as [(_ & Hnone & _)|(n & f & L & wl & Hn & Hrun & Hfin)];
    [congruence|].
  rewrite finish_run in Hfin. inversion Hfin; subst w' r. clear Hfin.
  cbn [this update with_results self_res_std] in Hrs. inversion Hrs.
  pose proof (steady_loop std df tl (range n)
                (start (S (length (heap w)))) (prepared tl d w)) as St.
  pose proof (loop_spec std df tl d (S (length (heap w))) (range n) _ _
                (prepared_live tl d w _ _ Hd)
                (loop_inv_rebase std _ _ _ _ _ _ (loop_inv_start std tl d w)
                   (le_n _))
                (or_introl eq_refl)) as R.
  rewrite Hrun in St, R. destruct St as (G & _ & Hthis).
  destruct R as (_ & Hinv & _).
  exists L, wl. splits; auto.
Qed.

(** A call of [fit] that ends with [df_new] unset has raised, and
    [plot_results] on the instance it leaves raises in turn and changes
    nothing: with the [KeyError] of the first bar chart when label columns
    are missing from the input, and otherwise with the [TypeError] of the
    second bar chart, which subscripts [None]. Right after [reset] it is
    the first bar chart that subscripts [None]. *)
Theorem plot_results_after_failed_fit df tl w d w' r :
  nth_error (heap w) df = Some d ->
  fit std df tl w = (w', r) ->
  self_df_new (this w') = None ->
  (exists e, r = inl e) /\
  plot_results w'
    = (w', inl (match missing tl (columns d) with
                | [] => TypeError
                | _ :: _ => KeyError (missing tl (columns d))
                end)) /\
  forall w0, plot_results (fst (reset w0)) = (fst (reset w0), inl TypeError).
Proof.
  intros Hd Hfit Hnone.
  assert (Hcopy : nth_error (heap (prepared tl d w)) (length (heap w))
                  = Some d).
  { unfold prepared, push, update. cbn [heap].
    apply nth_error_live, nth_error_fresh. }
  assert (Hshape : this w' = this (prepared tl d w) /\
                   grows (prepared tl d w) w' /\ exists e, r = inl e).
  { rewrite (fit_run _ _ _ _ _ Hd) in Hfit.
    destruct (as_index (number_of_adds (this w))) as [n|].
    - pose proof (steady_loop std df tl (range n)
                    (start (S (length (heap w)))) (prepared tl d w)) as St.
      destruct (for_each (iteration std df tl) (range n)
                  (start (S (length (heap w)))) (prepared tl d w))
        as [wl [e|[f L]]].
      + inversion Hfit; subst. destruct St as (G & _ & Hthis).
        splits; eauto.
      + cbn [snd] in Hfit. rewrite finish_run in Hfit.
        inversion Hfit; subst. discriminate.
    - inversion Hfit; subst. splits; eauto using grows_refl. }
  destruct Hshape as (Hthis & G & Hr).
  splits; [exact Hr| |reflexivity].
  pose proof (grows_live _ _ _ _ G Hcopy) as Hlive.
  unfold plot_results, bind at 1, get_self.
  unfold bind at 1. unfold plot_distr at 1, bind at 1, get_self.
  assert (Hdf : self_df (this w') = Some (length (heap w)))
    by (rewrite Hthis; reflexivity).
  assert (Htl : self_target_list (this w') = Some tl)
    by (rewrite Hthis; reflexivity).
  rewrite Hdf, Htl. unfold bind at 1, deref. rewrite Hlive.
  unfold label_sums.
  destruct (missing tl (columns d)); [|reflexivity].
  unfold ret, bind at 1, plot_distr, bind at 1, get_self. rewrite Hnone.
  reflexivity.
Qed.

(** After a run of [fit] that stored its results, on a non-empty frame
    that has the label columns, [plot_results] succeeds and changes
    nothing. It draws the label totals of the input and of the augmented
    frame, and a histogram of the augmented frame's index labels, one per
    row; these are index labels of the input, so the histogram has one bin
    per distinct index label of the input and its ticks run from the least
    to the greatest of them. *)
Theorem plot_results_after_fit df tl w d w' r rs :
  nth_error (heap w) df = Some d ->
  rows d <> [] -> missing tl (columns d) = [] ->
  fit std df tl w = (w', r) ->
  self_res_std (this w') = Some rs ->
  exists fig dn lo hi,
    plot_results w' = (w', inr fig) /\
    label_sums tl d = inr (bars_before fig) /\
    (exists a, self_df_new (this w') = Some a /\
               nth_error (heap w') a = Some dn) /\
    label_sums tl dn = inr (bars_after fig) /\
    hist_values fig = map label (rows dn) /\
    length (hist_values fig) = (length (rows d) + length rs)%nat /\
    (forall i, In i (hist_values fig) <-> In i (map label (rows d))) /\
    hist_bins fig = length (nodup Z.eq_dec (map label (rows d))) /\
    minimum (map label (rows d)) = Some lo /\
    maximum (map label (rows d)) = Some hi /\
    hist_ticks fig = span lo (hi + 1).
Proof.
  intros Hd Hne Hmiss Hfit Hrs.
  destruct (fit_stored _ _ _ _ _ _ _ Hd Hfit Hrs)
    as (L & wl & -> & -> & Hthis & G & (_ & extra & Hlive & Hin & Hlen & _)).
  set (dn := mkFrame (columns d) (rows d ++ extra)) in *.
  assert (Hcopy : nth_error (heap wl) (length (heap w)) = Some d).
  { eapply grows_live; [exact G|].
    unfold prepared, push, update. cbn [heap].
    apply nth_error_live, nth_error_fresh. }
  assert (Hlabels : map label (rows d) <> [])
    by (destruct (rows d); [congruence|discriminate]).
  assert (Hincl : incl (map label extra) (map label (rows d))).
  { intros i Hi. apply in_map_iff in Hi. destruct Hi as (row & <- & Hrow).
    apply in_map. rewrite Forall_forall in Hin. now apply Hin. }
  destruct (minimum_defined _ Hlabels) as [lo Hlo].
  destruct (maximum_defined _ Hlabels) as [hi Hhi].
  assert (Hsums : forall y, columns y = columns d ->
            exists sums, label_sums tl y = inr sums).
  { intros y Hy. unfold label_sums. rewrite Hy, Hmiss. eauto. }
  destruct (Hsums d eq_refl) as [before Hbefore].
  destruct (Hsums dn eq_refl) as [after Hafter].
  exists (mkFigure before after (map label (rows dn))
            (length (nodup Z.eq_dec (map label (rows dn))))
            (span lo (hi + 1))), dn, lo, hi.
  cbn [bars_before bars_after hist_values hist_bins hist_ticks].
  assert (Hrows : map label (rows dn)
                  = map label (rows d) ++ map label extra)
    by (cbn [dn rows]; apply map_app).
  splits; try assumption; try reflexivity.
  - unfold plot_results, bind at 1, get_self.
    cbn [this update heap]. rewrite Hthis.
    cbn [with_results self_df self_df_new self_target_list prepared this
         update push with_df with_target_list clear].
    unfold bind at 1, plot_distr at 1, bind at 1, get_self.
    cbn [this update heap with_results self_target_list].
    rewrite Hthis.
    cbn [self_target_list prepared this update push with_df
         with_target_list clear].
    unfold bind at 1, deref at 1. cbn [heap update]. rewrite Hcopy.
    rewrite Hbefore. unfold ret at 1.
    unfold bind at 1, plot_distr at 1, bind at 1, get_self.
    cbn [this update heap with_results self_target_list].
    rewrite Hthis.
    cbn [self_target_list prepared this update push with_df
         with_target_list clear].
    unfold bind at 1, deref at 1. cbn [heap update]. rewrite Hlive.
    fold dn. rewrite Hafter. unfold ret at 1.
    unfold bind at 1, plot_index_counts, bind at 1, deref at 1.
    cbn [heap update]. rewrite Hlive. fold dn.
    rewrite Hrows, (minimum_app _ _ Hlabels Hincl),
      (maximum_app _ _ Hlabels Hincl), Hlo, Hhi.
    reflexivity.
  - exists (df_new L). split; [reflexivity|exact Hlive].
  - rewrite length_map. cbn [dn rows]. rewrite length_app. lia.
  - intros i. rewrite Hrows. split.
    + intros Hi. apply in_app_or in Hi.
      destruct Hi as [Hi|Hi]; [exact Hi|now apply Hincl].
    + intros Hi. apply in_or_app. now left.
  - rewrite Hrows. now apply distinct_app.
Qed.

End Reports.

Lemma total_repeat a n : total (repeat a n) = a * Z.of_nat n.
Proof.
  induction n as [|n IH]; [cbn; lia|].
  cbn [repeat total fold_right]. fold (total (repeat a n)). lia.
Qed.

Lemma total_app l1 l2 : total (l1 ++ l2) = total l1 + total l2.
Proof.
  induction l1 as [|a l1 IH]; [reflexivity|].
  cbn [app total fold_right]. fold (total (l1 ++ l2)) (total l1). lia.
Qed.

Lemma total_permutation l1 l2 : Permutation l1 l2 -> total l1 = total l2.
Proof.
  unfold total.
  induction 1 as [|a l l' H IH|a b l|l l' l'' H1 IH1 H2 IH2];
    cbn [fold_right]; lia.
Qed.

Lemma ones_zeros_total a b :
  0 <= a -> total (Fake.ones a ++ Fake.zeros b) = a.
Proof.
  intros H. unfold Fake.ones, Fake.zeros.
  rewrite total_app, !total_repeat. lia.
Qed.

Lemma ones_zeros_length a b :
  0 <= a -> 0 <= b ->
  Z.of_nat (length (Fake.ones a ++ Fake.zeros b)) = a + b.
Proof.
  intros Ha Hb. unfold Fake.ones, Fake.zeros.
  rewrite length_app, !repeat_length. lia.
Qed.

Lemma ones_zeros_binary a b :
  Forall (fun v => v = 0 \/ v = 1) (Fake.ones a ++ Fake.zeros b).
Proof.
  apply Forall_app. split; apply Forall_forall; intros v Hv;
    apply repeat_spec in Hv; subst; auto.
Qed.

(** Whatever permutation the two shuffles produce, the data that
    [create_fake_data] returns has [20 * size] rows, every label is 0 or 1,
    and the label totals are [16 * size], [12 * size], [4 * size] and
    [4 * size]; it returns only for a size that is not negative and a seed
    numpy accepts. *)
Theorem fake_data_totals generator shuffle size seed w w' t :
  (forall l v v' l', shuffle l v = (v', inr l') -> Permutation l l') ->
  Fake.create_fake_data generator shuffle size seed w = (w', inr t) ->
  0 <= size /\ 0 <= seed < 2 ^ 32 /\
  Z.of_nat (length (Fake.y1 t)) = 20 * size /\
  Z.of_nat (length (Fake.y2 t)) = 20 * size /\
  Z.of_nat (length (Fake.y3 t)) = 20 * size /\
  Z.of_nat (length (Fake.y4 t)) = 20 * size /\
  Z.of_nat (length (Fake.x t)) = 20 * size /\
  total (Fake.y1 t) = 16 * size /\ total (Fake.y2 t) = 12 * size /\
  total (Fake.y3 t) = 4 * size /\ total (Fake.y4 t) = 4 * size /\
  Forall (fun v => v = 0 \/ v = 1)
    (Fake.y1 t ++ Fake.y2 t ++ Fake.y3 t ++ Fake.y4 t).
Proof.
  intros Hperm Hrun.
  unfold Fake.create_fake_data, Fake.seed_everything, bind at 1 in Hrun.
  destruct ((0 <=? seed) && (seed <? 2 ^ 32)) eqn:Hseed;
    [|discriminate].
  apply andb_true_iff in Hseed. destruct Hseed as [Hs1 Hs2].
  apply Z.leb_le in Hs1. apply Z.ltb_lt in Hs2.
  destruct (Z.ltb_spec size 0) as [|Hsize]; [discriminate|].
  unfold bind at 1 in Hrun.
  destruct (shuffle _ _) as [w1 [e|c3]] eqn:H3; [discriminate|].
  unfold bind at 1 in Hrun.
  destruct (shuffle _ w1) as [w2 [e|c4]] eqn:H4; [discriminate|].
  unfold ret in Hrun.
  assert (Ht : t = Fake.mkTable
                     (Fake.ones (16 * size) ++ Fake.zeros (4 * size))
                     (Fake.ones (12 * size) ++ Fake.zeros (8 * size))
                     c3 c4 (map Fake.img (range (20 * size))))
    by congruence.
  rewrite Ht. clear Hrun Ht.
  unfold Fake.y1, Fake.y2, Fake.y3, Fake.y4, Fake.x.
  apply Hperm in H3, H4.
  rewrite <- (Permutation_length H3), <- (Permutation_length H4).
  rewrite <- (total_permutation _ _ H3), <- (total_permutation _ _ H4).
  rewrite length_map, range_length.
  rewrite !ones_zeros_length, !ones_zeros_total by lia.
  splits; try lia.
  apply Forall_app. split; [apply ones_zeros_binary|].
  apply Forall_app. split; [apply ones_zeros_binary|].
  apply Forall_app. split.
  - eapply Permutation_Forall; [exact H3|apply ones_zeros_binary].
  - eapply Permutation_Forall; [exact H4|apply ones_zeros_binary].
Qed.

(** ** Concrete runs for the further properties *)

Lemma binary_round_aux_not_below_zero mz ez lz :
  SFltb (binary_round_aux prec emax false mz ez lz) (S754_zero false) = false.
Proof.
  unfold binary_round_aux.
  destruct (shr_fexp prec emax mz ez lz) as [mrs' e'].
  destruct (shr_fexp prec emax _ e' loc_Exact) as [mrs'' e''].
  destruct (shr_m mrs''); [reflexivity| |reflexivity].
  destruct (Z.leb e'' (emax - prec)); reflexivity.
Qed.

Lemma sample_std_not_below_zero v :
  SFltb (sample_std v) (S754_zero false) = false.
Proof.
  unfold sample_std.
  destruct (Z.of_nat (length v) <=? 1); [reflexivity|].
  match goal with |- SFltb (SFsqrt _ _ ?a) _ = _ => generalize a end.
  intros a. destruct a as [[]|[]| |[] mx ex]; try reflexivity.
  unfold SFsqrt.
  destruct (SFsqrt_core_binary prec emax (Z.pos mx) ex) as [[mz ez] lz].
  apply binary_round_aux_not_below_zero.
Qed.

Lemma fit_without_iterations_witness :
  exists w',
    fit sample_std 0%nat unknown_label negative_adds_world
      = (w', inr (RetFrame (S (length (heap negative_adds_world))))) /\
    nth_error (heap w') (S (length (heap negative_adds_world)))
      = Some demo /\
    length (heap w') = (length (heap negative_adds_world) + 2)%nat /\
    drawn w' = drawn negative_adds_world /\
    stdout w' = stdout negative_adds_world /\
    self_res_std (this w') = Some [] /\ self_res_bad (this w') = Some [].
Proof.
  apply (fit_without_iterations sample_std 0%nat unknown_label
           negative_adds_world demo (-1)).
  - reflexivity.
  - reflexivity.
  - lia.
Defined.

Lemma fit_without_tries_witness :
  fit sample_std 0%nat labels negative_tries_world
    = (prepared labels demo negative_tries_world, inl UnboundLocalError) /\
  drawn (prepared labels demo negative_tries_world)
    = drawn negative_tries_world /\
  self_res_std (this (prepared labels demo negative_tries_world)) = None.
Proof.
  apply (fit_without_tries sample_std 0%nat labels negative_tries_world
           demo 5 (-2)).
  - reflexivity.
  - reflexivity.
  - lia.
  - reflexivity.
  - lia.
  - reflexivity.
Defined.

Lemma fit_rejects_float_budget_witness :
  fit sample_std 0%nat labels zero_adds_world
    = (prepared labels demo zero_adds_world, inl TypeError) /\
  drawn (prepared labels demo zero_adds_world) = drawn zero_adds_world /\
  (forall adds tries q dt pl,
     (truthy adds = false ->
      as_index (number_of_adds (init adds tries q dt pl)) = None) /\
     (truthy tries = false ->
      as_index (number_of_tries (init adds tries q dt pl)) = None)).
Proof.
  apply (fit_rejects_float_budget sample_std 0%nat labels zero_adds_world
           demo).
  - reflexivity.
  - left. reflexivity.
Defined.

Lemma fit_on_empty_frame_witness :
  fit sample_std 0%nat labels empty_world
    = (prepared labels (mkFrame (columns balanced) []) empty_world,
       inl ValueError) /\
  drawn (prepared labels (mkFrame (columns balanced) []) empty_world)
    = drawn empty_world.
Proof.
  apply (fit_on_empty_frame sample_std 0%nat labels empty_world
           (mkFrame (columns balanced) []) 5 2).
  - reflexivity.
  - reflexivity.
  - reflexivity.
  - lia.
  - reflexivity.
  - lia.
  - reflexivity.
Defined.

Lemma fit_forgets_earlier_results_witness :
  this stale_world <> this demo_world /\
  fit sample_std 0%nat labels stale_world
    = fit sample_std 0%nat labels demo_world.
Proof.
  split; [discriminate|].
  apply (fit_forgets_earlier_results sample_std 0%nat labels stale_world
           demo_world).
  reflexivity.
Defined.

Lemma fit_attributes_witness :
  self_target_list (this (fst demo_run)) = Some labels /\
  self_df (this (fst demo_run)) = Some (length (heap demo_world)) /\
  nth_error (heap (fst demo_run)) (length (heap demo_world)) = Some demo /\
  number_of_adds (this (fst demo_run)) = number_of_adds (this demo_world) /\
  number_of_tries (this (fst demo_run))
    = number_of_tries (this demo_world) /\
  details (this (fst demo_run)) = details (this demo_world) /\
  plot (this (fst demo_run)) = plot (this demo_world) /\
  ((self_df_new (this (fst demo_run)) = None /\
    self_res_std (this (fst demo_run)) = None /\
    self_res_bad (this (fst demo_run)) = None /\
    exists e, snd demo_run = inl e) \/
   (exists a rs rb,
      self_df_new (this (fst demo_run)) = Some a /\
      self_res_std (this (fst demo_run)) = Some rs /\
      self_res_bad (this (fst demo_run)) = Some rb /\
      a <> 0%nat /\ a <> length (heap demo_world))).
Proof.
  apply (fit_attributes sample_std 0%nat labels demo_world demo
           (fst demo_run) (snd demo_run)).
  - reflexivity.
  - vm_compute. reflexivity.
Defined.

Lemma fit_draw_bound_witness :
  (drawn demo_world + length demo_scores <= drawn (fst demo_run))%nat /\
  (drawn (fst demo_run) <= drawn demo_world + Z.to_nat 5 * Z.to_nat 2)%nat.
Proof.
  apply (fit_draw_bound sample_std 0%nat labels demo_world demo 5 2
           (fst demo_run) (snd demo_run) demo_scores).
  - reflexivity.
  - reflexivity.
  - reflexivity.
  - lia.
  - vm_compute. reflexivity.
  - vm_compute. reflexivity.
Defined.

Lemma fit_trace_shape_witness :
  (length pair_rejects <= length pair_scores
   <= length pair_rejects + 1)%nat /\
  Forall (fun rej => Z.of_nat (length rej) + 1 < 3) pair_rejects.
Proof.
  apply (fit_trace_shape sample_std 0%nat labels pair_world demo 3
           (fst pair_run) (snd pair_run) pair_scores pair_rejects).
  - reflexivity.
  - reflexivity.
  - lia.
  - vm_compute. reflexivity.
  - vm_compute. reflexivity.
  - vm_compute. reflexivity.
Defined.

Lemma fit_plot_fails_after_first_draw_witness :
  exists w' s rs rb,
    fit sample_std 0%nat labels eager_world = (w', inl ValueError) /\
    self_res_std (this w') = Some (s :: rs) /\
    self_res_bad (this w') = Some ([] :: rb).
Proof.
  apply (fit_plot_fails_after_first_draw sample_std 0%nat labels eager_world
           demo 5 2 demo_score (S754_finite false 6369051672525773 (-53))).
  - reflexivity.
  - discriminate.
  - reflexivity.
  - lia.
  - reflexivity.
  - lia.
  - reflexivity.
  - vm_compute. reflexivity.
  - vm_compute. reflexivity.
  - vm_compute. reflexivity.
Defined.

Lemma fit_plot_fails_after_last_try_witness :
  fit sample_std 0%nat labels single_try_world
    = (update (with_results single_try_T)
         (say (NoImprovement (number_of_tries (this single_try_world)) 0)
            (fst single_try_loop)),
       inl IndexError) /\
  (exists s, res_std single_try_T = [s] /\ SFltb s demo_score = true) /\
  res_bad single_try_T = [].
Proof.
  apply (fit_plot_fails_after_last_try sample_std 0%nat labels
           single_try_world demo 5 1 demo_score (fst single_try_loop)
           single_try_T).
  - reflexivity.
  - reflexivity.
  - lia.
  - reflexivity.
  - reflexivity.
  - vm_compute. reflexivity.
  - vm_compute. reflexivity.
  - vm_compute. reflexivity.
Defined.

Lemma fit_on_balanced_frame_witness :
  exists w',
    fit sample_std 0%nat labels balanced_world
      = (w', inr (RetFrame (S (length (heap balanced_world))))) /\
    nth_error (heap w') (S (length (heap balanced_world))) = Some balanced /\
    drawn w' = (drawn balanced_world + Z.to_nat 2)%nat /\
    stdout w'
      = stdout balanced_world
          ++ [NoImprovement (number_of_tries (this balanced_world)) 0] /\
    self_res_std (this w') = Some [] /\
    self_res_bad (this w') = Some [].
Proof.
  apply (fit_on_balanced_frame sample_std 0%nat labels balanced_world
           balanced 5 2 false sample_std_not_below_zero).
  - reflexivity.
  - discriminate.
  - vm_compute. reflexivity.
  - reflexivity.
  - lia.
  - reflexivity.
  - lia.
Defined.

Lemma plot_results_after_failed_fit_witness :
  (exists e, @inl exn retval TypeError = inl e) /\
  plot_results (prepared labels demo zero_adds_world)
    = (prepared labels demo zero_adds_world, inl TypeError) /\
  forall w0, plot_results (fst (reset w0)) = (fst (reset w0), inl TypeError).
Proof.
  apply (plot_results_after_failed_fit sample_std 0%nat labels
           zero_adds_world demo (prepared labels demo zero_adds_world)
           (inl TypeError)).
  - reflexivity.
  - vm_compute. reflexivity.
  - reflexivity.
Defined.

Lemma plot_results_after_fit_witness :
  exists fig dn lo hi,
    plot_results (fst demo_run) = (fst demo_run, inr fig) /\
    label_sums labels demo = inr (bars_before fig) /\
    (exists a, self_df_new (this (fst demo_run)) = Some a /\
               nth_error (heap (fst demo_run)) a = Some dn) /\
    label_sums labels dn = inr (bars_after fig) /\
    hist_values fig = map label (rows dn) /\
    length (hist_values fig)
      = (length (rows demo) + length demo_scores)%nat /\
    (forall i, In i (hist_values fig) <-> In i (map label (rows demo))) /\
    hist_bins fig = length (nodup Z.eq_dec (map label (rows demo))) /\
    minimum (map label (rows demo)) = Some lo /\
    maximum (map label (rows demo)) = Some hi /\
    hist_ticks fig = span lo (hi + 1).
Proof.
  apply (plot_results_after_fit sample_std 0%nat labels demo_world demo
           (fst demo_run) (snd demo_run) demo_scores).
  - reflexivity.
  - discriminate.
  - reflexivity.
  - vm_compute. reflexivity.
  - vm_compute. reflexivity.
Defined.

Lemma fake_data_totals_witness :
  0 <= 1 /\ 0 <= 3 < 2 ^ 32 /\
  Z.of_nat (length (Fake.y1 fake_table)) = 20 * 1 /\
  Z.of_nat (length (Fake.y2 fake_table)) = 20 * 1 /\
  Z.of_nat (length (Fake.y3 fake_table)) = 20 * 1 /\
  Z.of_nat (length (Fake.y4 fake_table)) = 20 * 1 /\
  Z.of_nat (length (Fake.x fake_table)) = 20 * 1 /\
  total (Fake.y1 fake_table) = 16 * 1 /\
  total (Fake.y2 fake_table) = 12 * 1 /\
  total (Fake.y3 fake_table) = 4 * 1 /\
  total (Fake.y4 fake_table) = 4 * 1 /\
  Forall (fun v => v = 0 \/ v = 1)
    (Fake.y1 fake_table ++ Fake.y2 fake_table ++ Fake.y3 fake_table
     ++ Fake.y4 fake_table).
Proof.
  apply (fake_data_totals counting reversing 1 3 demo_world (fst fake_run)
           fake_table).
  - intros l v v' l' H. unfold reversing, ret in H.
    injection H as _ <-. apply Permutation_rev.
  - vm_compute. reflexivity.
Defined.

(** ** The score and the printed line *)

Lemma column_sum_permutation rs rs' pos :
  Permutation rs rs' -> column_sum rs pos = column_sum rs' pos.
Proof.
  intros H. unfold column_sum. f_equal.
  rewrite !(fold_symmetric Z.add Z.add_assoc 0 (fun y => Z.add_comm 0 y)).
  apply (total_permutation (map (fun r => nth pos (cells r) 0) rs)
           (map (fun r => nth pos (cells r) 0) rs')).
  now apply Permutation_map.
Qed.

Section Output.

Variable std : list Z -> float.

(** The score looks at the rows as a bag: two frames over the same columns
    whose rows are a permutation of each other have the same label totals
    and the same score, so the order in which rows were appended does not
    matter. *)
Theorem frame_score_permutation tl a b :
  columns a = columns b -> Permutation (rows a) (rows b) ->
  label_sums tl a = label_sums tl b /\
  frame_score std tl a = frame_score std tl b.
Proof.
  intros Hc Hp.
  assert (H : label_sums tl a = label_sums tl b).
  { unfold label_sums. rewrite Hc.
    destruct (missing tl (columns b)); [|reflexivity].
    f_equal. apply map_ext. intros name.
    destruct (position name (columns b)); [|reflexivity].
    now apply column_sum_permutation. }
  split; [exact H|]. unfold frame_score. now rewrite H.
Qed.

(** The iteration loop over [range n] with [details] off: it prints
    nothing while it goes on, and when it breaks it has printed the one
    line that names the iteration it broke in, whose index is the number
    of lists recorded so far. *)
Lemma loop_output df tl d base m n L w :
  nth_error (heap w) df = Some d ->
  loop_inv std tl d base w L ->
  as_index (number_of_tries (this w)) = Some m -> 1 <= m ->
  details (this w) = false ->
  match for_each (iteration std df tl) (range n) L w with
  | (w', inr (Next, L')) =>
      stdout w' = stdout w /\
      length (res_bad L') = (length (res_bad L) + Z.to_nat n)%nat /\
      length (res_std L') = (length (res_std L) + Z.to_nat n)%nat
  | (w', inr (Break, L')) =>
      exists k, (k < Z.to_nat n)%nat /\
        stdout w'
        = stdout w
            ++ [NoImprovement (number_of_tries (this w)) (Z.of_nat k)] /\
        length (res_bad L') = (length (res_bad L) + k)%nat
  | (w', inl e) => True
  end.
Proof.
  intros Hd Hinv Hm Hpos Hdet.
  pose (I := fun (k : nat) (L' : locals) (w' : world) =>
    steady w w' /\ loop_inv std tl d base w' L' /\
    stdout w' = stdout w /\
    length (res_bad L') = (length (res_bad L) + k)%nat /\
    length (res_std L') = (length (res_std L) + k)%nat).
  pose (B := fun (k : nat) (L' : locals) (w' : world) =>
    stdout w'
    = stdout w ++ [NoImprovement (number_of_tries (this w)) (Z.of_nat k)] /\
    length (res_bad L') = (length (res_bad L) + k)%nat).
  pose (E := fun (_ : exn) (_ : world) => True).
  assert (Hstep : forall k x L1 w1, nth_error (range n) k = Some x ->
            I k L1 w1 ->
            match iteration std df tl x L1 w1 with
            | (w', inr (Next, L')) => I (S k) L' w'
            | (w', inr (Break, L')) => B k L' w'
            | (w', inl e) => E e w'
            end).
  { intros k x L1 w1 Hx (St & Hinv1 & Hout1 & Hrb1 & Hrs1).
    apply range_nth in Hx. destruct Hx as [-> _].
    unfold I, B, E.
    pose proof St as (G & Hent & Hthis).
    pose proof (grows_live _ _ _ _ G Hd) as Hd1.
    pose proof Hinv1 as (Hb & extra & Hlive & Hin & Hlen & Hsc).
    assert (Hg1 : try_ L1 = None \/
              exists m0, as_index (number_of_tries (this w1)) = Some m0
                         /\ 1 <= m0)
      by (right; exists m; rewrite Hthis; now split).
    assert (Hdet1 : details (this w1) = false) by (now rewrite Hthis).
    pose proof (iteration_spec std df tl (Z.of_nat k) L1 w1 d _ Hd1 Hlive
                  Hg1) as R.
    destruct (iteration std df tl (Z.of_nat k) L1 w1) as [w' [e|[[] L']]].
    - exact Logic.I.
    - destruct R as (m' & cur & j & s & dn' & _ & Hcur & _ & St' & Hout & _
                     & Hfresh & Hlive' & Hacc & Hrs & Hrb & _).
      splits.
      + eapply steady_trans; eassumption.
      + eapply loop_inv_accept; eassumption.
      + now rewrite (Hout Hdet1).
      + rewrite Hrb, length_app. cbn. lia.
      + rewrite Hrs, length_app. cbn. lia.
    - destruct R as (m' & cur & _ & _ & _ & _ & _ & Hrb & _ & _ & Hout & _).
      split.
      + now rewrite (Hout Hdet1), Hout1, Hthis.
      + now rewrite Hrb. }
  assert (H0 : I O L w).
  { unfold I. splits; try assumption; try lia; [apply steady_refl|]. 
    reflexivity. }
  pose proof (for_each_rule _ (range n) I B E Hstep L w H0) as R.
  destruct (for_each (iteration std df tl) (range n) L w)
    as [w' [e|[[] L']]].
  - exact Logic.I.
  - rewrite range_length in R.
    destruct R as (_ & _ & Hout & Hrb & Hrs). now splits.
  - rewrite range_length in R. destruct R as (k & Hk & Hout & Hrb).
    exists k. now splits.
Qed.

(** How a caller tells a completed run from one that stopped early, with
    [details] off and integer budgets, [m >= 1]. When [fit] stores its
    results, either it has printed nothing, and then all [n] iterations
    accepted, or it has printed exactly the no-improvement line, and then
    the iteration named in it is the one after the last recorded list and
    fewer than [n] lists are recorded. *)
Theorem fit_reports_early_stop df tl w d n m w' r rs rb :
  nth_error (heap w) df = Some d ->
  as_index (number_of_adds (this w)) = Some n ->
  as_index (number_of_tries (this w)) = Some m -> 1 <= m ->
  details (this w) = false ->
  fit std df tl w = (w', r) ->
  self_res_std (this w') = Some rs ->
  self_res_bad (this w') = Some rb ->
  (stdout w' = stdout w /\
   length rs = Z.to_nat n /\ length rb = Z.to_nat n) \/
  (stdout w'
   = stdout w
       ++ [NoImprovement (number_of_tries (this w))
             (Z.of_nat (length rb))] /\
   (length rb < Z.to_nat n)%nat).
Proof.
  intros Hd Hn Hm Hpos Hdet Hfit Hrs Hrb.
  destruct (fit_results std _ _ _ _ _ _ Hd Hfit)
    as [(_ & Hnone & _)|(n' & f & L & wl & Hn' & Hrun & Hfin)];
    [congruence|].
  rewrite Hn in Hn'. inversion Hn'; subst n'.
  rewrite finish_run in Hfin. inversion Hfin; subst w' r. clear Hfin.
  cbn [this update with_results self_res_std self_res_bad] in Hrs, Hrb.
  inversion Hrs; subst rs. inversion Hrb; subst rb.
  cbn [stdout update].
  pose proof (loop_output df tl d (length (heap w)) m n _ _
                (prepared_live tl d w _ _ Hd) (loop_inv_start std tl d w)
                Hm Hpos Hdet) as R.
  rewrite Hrun in R. destruct f.
  - left. destruct R as (Hout & Hb & Hs). splits.
    + exact Hout.
    + exact Hs.
    + exact Hb.
  - right. destruct R as (k & Hk & Hout & Hb).
    cbn [res_bad start length Nat.add] in Hb. rewrite Hb.
    split; [exact Hout|exact Hk].
Qed.

End Output.

Lemma frame_score_permutation_witness :
  label_sums labels demo
    = label_sums labels (mkFrame (columns demo) (rev (rows demo))) /\
  frame_score sample_std labels demo
    = frame_score sample_std labels
        (mkFrame (columns demo) (rev (rows demo))).
Proof.
  apply (frame_score_permutation sample_std labels demo
           (mkFrame (columns demo) (rev (rows demo)))).
  - reflexivity.
  - apply Permutation_rev.
Defined.

Lemma fit_reports_early_stop_witness :
  (stdout (fst pair_run) = stdout pair_world /\
   length pair_scores = Z.to_nat 5 /\ length pair_rejects = Z.to_nat 5) \/
  (stdout (fst pair_run)
   = stdout pair_world
       ++ [NoImprovement (number_of_tries (this pair_world))
             (Z.of_nat (length pair_rejects))] /\
   (length pair_rejects < Z.to_nat 5)%nat).
Proof.
  apply (fit_reports_early_stop sample_std 0%nat labels pair_world demo 5 3
           (fst pair_run) (snd pair_run) pair_scores pair_rejects).
  - reflexivity.
  - reflexivity.
  - reflexivity.
  - lia.
  - reflexivity.
  - vm_compute. reflexivity.
  - vm_compute. reflexivity.
  - vm_compute. reflexivity.
Defined.
